(** * DoublesidedMaxwell: a shallow embedding of
      [tensorflow_probability/python/distributions/doublesided_maxwell.py]

    The distribution is a thin layer over three collaborators: the tensor
    runtime (broadcasting element-wise arithmetic), the random source and the
    [Distribution] base class.  The tensor runtime is modelled here with
    concrete shapes and the NumPy broadcasting rule; the scalar arithmetic of
    the element type is an interface ([Scalar]) so that everything that only
    depends on the structure of the computation holds for every
    implementation of the arithmetic.  Properties of special values are
    settled on the extended reals ([xreal]), exact arithmetic with the IEEE
    infinities and not-a-number; what rounding does to them is settled on
    single-precision floats ([Float32]). *)

From Stdlib Require Import List Arith Lia Bool String Ascii.
From Stdlib Require Import DecimalString ZArith Reals Lra.
From Stdlib Require SpecFloat.
Import ListNotations.

Set Implicit Arguments.

(** ** Exceptions and results *)

Inductive exn : Type :=
| ValueError (msg : string)
| InvalidArgumentError (msg : string).

Inductive result (A : Type) : Type :=
| Ok (a : A)
| Raise (e : exn).

Arguments Ok {A} a.
Arguments Raise {A} e.

Definition bind {A B : Type} (m : result A) (k : A -> result B) : result B :=
  match m with
  | Ok a => k a
  | Raise e => Raise e
  end.

Notation "x <- m ;; k" := (bind m (fun x => k))
  (at level 61, m at next level, right associativity).

(** ** Runtime shapes and the broadcasting rule *)

Definition Shape := list nat.

(** One pair of aligned dimensions: a dimension of size 1 stretches. *)
Definition bcast_dim (x y : nat) : option nat :=
  if x =? 1 then Some y
  else if y =? 1 then Some x
  else if x =? y then Some x
  else None.

(** Broadcasting aligns shapes at their trailing dimension, so the recursion
    runs over the reversed shapes; the shorter one is padded with ones, which
    leaves the remaining dimensions of the longer one. *)
Fixpoint bcast_rev (a b : list nat) : option (list nat) :=
  match a, b with
  | [], _ => Some b
  | _, [] => Some a
  | x :: a', y :: b' =>
      match bcast_dim x y, bcast_rev a' b' with
      | Some d, Some r => Some (d :: r)
      | _, _ => None
      end
  end.

(** [tf.broadcast_dynamic_shape] on two runtime shapes. *)
Definition broadcast_dynamic_shape (a b : Shape) : option Shape :=
  option_map (@rev nat) (bcast_rev (rev a) (rev b)).

(** The position an operand of shape [s] is read at when the result is read
    at [idx]: leading result axes the operand does not have are dropped and a
    stretched axis (size 1) is always read at 0. *)
Fixpoint proj_rev (idx s : list nat) : list nat :=
  match idx, s with
  | i :: idx', d :: s' => (if d =? 1 then 0 else i) :: proj_rev idx' s'
  | _, _ => []
  end.

Definition bproj (idx : list nat) (s : Shape) : list nat :=
  rev (proj_rev (rev idx) (rev s)).

(** A multi-index addresses an element of a tensor of shape [s]. *)
Definition in_bounds (idx : list nat) (s : Shape) : Prop :=
  Forall2 lt idx s.

(** [fits_rev a c]: on reversed shapes, every dimension of [a] is 1 or the
    aligned dimension of [c], and [c] has at least the rank of [a]; an operand
    of shape [a] can be stretched to [c]. *)
Inductive fits_rev : list nat -> list nat -> Prop :=
| fits_nil : forall c, fits_rev [] c
| fits_cons : forall x a y c,
    x = 1 \/ x = y -> fits_rev a c -> fits_rev (x :: a) (y :: c).

Definition fits (a c : Shape) : Prop := fits_rev (rev a) (rev c).

(** Modelled from the spec: [prefer_static.pad] of a shape vector with
    [paddings=[[before, after]]] and [constant_values=c]; the sample shape is
    [[n] + batch_shape] and the normal draws have one more axis of size 3. *)
Definition pad (s : Shape) (before after c : nat) : Shape :=
  repeat c before ++ s ++ repeat c after.

(** ** Static shapes

    A [tf.TensorShape] may have an unknown rank, and a known rank with
    unknown dimensions. *)

Definition Dimension := option nat.
Definition TensorShape := option (list Dimension).

(** One pair of aligned static dimensions of [tf.broadcast_static_shape]:
    when a dimension is unknown the program is assumed correct. *)
Definition bcast_static_dim (x y : Dimension) : option Dimension :=
  match x, y with
  | Some dx, Some dy =>
      if dx =? 1 then Some (Some dy)
      else if dy =? 1 then Some (Some dx)
      else if dx =? dy then Some (Some dx)
      else None
  | Some dx, None => if 1 <? dx then Some (Some dx) else Some None
  | None, Some dy => if 1 <? dy then Some (Some dy) else Some None
  | None, None => Some None
  end.

Fixpoint bcast_static_rev (a b : list Dimension) : option (list Dimension) :=
  match a, b with
  | [], _ => Some b
  | _, [] => Some a
  | x :: a', y :: b' =>
      match bcast_static_dim x y, bcast_static_rev a' b' with
      | Some d, Some r => Some (d :: r)
      | _, _ => None
      end
  end.

(** [tf.broadcast_static_shape]: raises [ValueError] on shapes that are known
    to be incompatible, returns the unknown shape when a rank is unknown. *)
Definition broadcast_static_shape (a b : TensorShape) : result TensorShape :=
  match a, b with
  | Some da, Some db =>
      match bcast_static_rev (rev da) (rev db) with
      | Some r => Ok (Some (rev r))
      | None => Raise (ValueError "Incompatible shapes for broadcasting")
      end
  | _, _ => Ok None
  end.

(** A static shape all of whose dimensions are known. *)
Definition fully_known (s : Shape) : TensorShape := Some (map (@Some nat) s).

(** [str] of a [tf.TensorShape]. *)
Definition nat_str (n : nat) : string :=
  NilEmpty.string_of_uint (Nat.to_uint n).

Definition Dimension_str (d : Dimension) : string :=
  match d with
  | Some n => nat_str n
  | None => "None"
  end.

Definition TensorShape_str (s : TensorShape) : string :=
  match s with
  | None => "<unknown>"
  | Some [d] => ("(" ++ Dimension_str d ++ ",)")%string
  | Some ds => ("(" ++ String.concat ", " (map Dimension_str ds) ++ ")")%string
  end.

(** ** Scalar arithmetic of the element type

    The operations of the floating-point [dtype] the tensors hold, and the
    Python and NumPy constants of the source converted to it. *)

Class Scalar (F : Type) : Type := {
  fadd : F -> F -> F;
  fsub : F -> F -> F;
  fmul : F -> F -> F;
  fdiv : F -> F -> F;
  fneg : F -> F;
  flog : F -> F;
  fexp : F -> F;
  fsqrt : F -> F;
  (** the comparison [x > 0], false of a not-a-number *)
  fpositive : F -> bool;
  zero : F;
  one : F;
  (** the literal [-0.5] *)
  neg_half : F;
  (** [0.5 * np.log(2. * np.pi)] *)
  half_log_2pi : F;
  (** [np.sqrt(3.)] *)
  sqrt_3 : F
}.

(** ** Tensors

    A tensor is its runtime shape and its elements, addressed by a
    multi-index; only the positions [in_bounds] of the shape are elements. *)

Record Tensor (F : Type) : Type := mkTensor {
  shape : Shape;
  get : list nat -> F
}.

Definition tensor_eq {F : Type} (a b : Tensor F) : Prop :=
  shape a = shape b /\
  forall idx, in_bounds idx (shape a) -> get a idx = get b idx.

(** Two results agree: both are tensors with the same elements, or both are
    the same exception. *)
Definition result_eq {F : Type} (a b : result (Tensor F)) : Prop :=
  match a, b with
  | Ok ta, Ok tb => tensor_eq ta tb
  | Raise ea, Raise eb => ea = eb
  | _, _ => False
  end.

(** A Python scalar used as an operand is a tensor of rank 0. *)
Definition constant {F : Type} (c : F) : Tensor F := mkTensor [] (fun _ => c).

(** A rank-1 tensor given by the list of its elements. *)
Definition vector {F : Type} (dflt : F) (l : list F) : Tensor F :=
  mkTensor [List.length l]
    (fun idx => match idx with [i] => nth i l dflt | _ => dflt end).

(** A broadcasting element-wise binary operation; incompatible runtime shapes
    raise. *)
Definition binop {F : Type} (f : F -> F -> F) (a b : Tensor F)
  : result (Tensor F) :=
  match broadcast_dynamic_shape (shape a) (shape b) with
  | Some s =>
      Ok (mkTensor s (fun idx =>
            f (get a (bproj idx (shape a))) (get b (bproj idx (shape b)))))
  | None => Raise (InvalidArgumentError "Incompatible shapes")
  end.

(** An element-wise unary operation. *)
Definition unop {F : Type} (f : F -> F) (a : Tensor F) : Tensor F :=
  mkTensor (shape a) (fun idx => f (get a idx)).

(** The positions of a shape, in row-major order, and the elements of a
    tensor. *)
Fixpoint indices (s : Shape) : list (list nat) :=
  match s with
  | [] => [[]]
  | d :: s' => flat_map (fun i => map (cons i) (indices s')) (seq 0 d)
  end.

Definition elements {F : Type} (t : Tensor F) : list F :=
  map (get t) (indices (shape t)).

(** Sum of a sequence of elements, accumulated from the first one. *)
Definition reduce_sum {F : Type} `{Scalar F} (l : list F) : F :=
  match l with
  | [] => zero
  | x :: l' => fold_left fadd l' x
  end.

Section TensorOps.
Context {F : Type} `{Scalar F}.

Definition tf_add := binop fadd.
Definition tf_sub := binop fsub.
Definition tf_mul := binop fmul.
Definition tf_div := binop fdiv.

(** [tf.square] is the product of the element with itself. *)
Definition tf_square : Tensor F -> Tensor F := unop (fun x => fmul x x).
Definition tf_log : Tensor F -> Tensor F := unop flog.
Definition tf_exp : Tensor F -> Tensor F := unop fexp.

(** [tf.ones_like]: only the shape of the argument is used. *)
Definition tf_ones_like (a : Tensor F) : Tensor F :=
  mkTensor (shape a) (fun _ => one).

(** [tf.norm(t, axis=-1)]: the Euclidean norm along the last axis, which is
    removed from the shape.  A tensor of rank 0 has no last axis. *)
Definition tf_norm_last (t : Tensor F) : result (Tensor F) :=
  match shape t with
  | [] => Raise (ValueError "axis -1 is out of range for a tensor of rank 0")
  | _ :: _ =>
      Ok (mkTensor (removelast (shape t)) (fun idx =>
            fsqrt (reduce_sum
                     (map (fun j => let x := get t (idx ++ [j]) in fmul x x)
                          (seq 0 (last (shape t) 0))))))
  end.
End TensorOps.

(** ** Seeds and the random source *)

(** The seed argument of [sample]: an integer, or [None]. *)
Definition Seed := option Z.

(** Modelled from the spec: the seed stream
    ([tensorflow_probability.python.util.seed_stream.SeedStream]) is a stateful
    generator that, given a base seed and a salt label, yields successive
    deterministic sub-seeds; it is a counter threaded through the draws.  A
    sub-seed is determined by the base seed, the salt and the number of the
    call that produced it. *)
Record SubSeed : Type := mkSubSeed {
  base_seed : Seed;
  seed_salt : string;
  draw_number : nat
}.

Record SeedStream : Type := mkSeedStream {
  original_seed : Seed;
  salt : string;
  counter : nat
}.

Definition SeedStream_new (seed : Seed) (salt : string) : SeedStream :=
  mkSeedStream seed salt 0.

(** One call [seed()]: the stream advances and yields its next sub-seed. *)
Definition SeedStream_call (s : SeedStream) : SubSeed * SeedStream :=
  let c := S (counter s) in
  (mkSubSeed (original_seed s) (salt s) c,
   mkSeedStream (original_seed s) (salt s) c).

(** ** The distribution *)

(** Modelled from the spec: a parameter as the instance stores it is a
    materialised tensor or a reference to a deferred or mutable value, which
    [tensor_util.is_ref] tells apart; [value] is the tensor it converts to
    when it is read and [static_shape] is its [.shape]. *)
Record TensorLike (F : Type) : Type := mkTensorLike {
  static_shape : TensorShape;
  is_ref : bool;
  value : Tensor F
}.

Record DoublesidedMaxwell (F : Type) : Type := mkDoublesidedMaxwell {
  loc : TensorLike F;
  scale : TensorLike F;
  validate_args : bool;
  allow_nan_stats : bool;
  name : string
}.

(** What an assertion that held leaves in the list of control
    dependencies. *)
Inductive Assertion (F : Type) : Type :=
| checked_positive (x : TensorLike F) (message : string).

(** Modelled from the spec: [assert_util.assert_positive(x, message=...)]
    checks that [x] is strictly positive everywhere; the failure is raised
    at the call, as an [InvalidArgumentError] with the message. *)
Definition assert_positive {F : Type} `{Scalar F} (x : TensorLike F)
    (message : string) : result (Assertion F) :=
  if forallb fpositive (elements (value x))
  then Ok (checked_positive x message)
  else Raise (InvalidArgumentError message).

Definition compatible_shapes_message (loc_shape scale_shape : TensorShape)
  : string :=
  ("Arguments `loc` and `scale` must have compatible shapes; loc.shape="
   ++ TensorShape_str loc_shape ++ ", scale.shape="
   ++ TensorShape_str scale_shape ++ ".")%string.

(** Two static shapes are known to conflict: both ranks are known and,
    counting from the last axis, some pair of aligned dimensions is known on
    both sides, neither is 1 and they differ. *)
Definition known_conflict (a b : TensorShape) : Prop :=
  exists da db i dx dy,
    a = Some da /\ b = Some db /\
    nth_error (rev da) i = Some (Some dx) /\
    nth_error (rev db) i = Some (Some dy) /\
    dx <> 1 /\ dy <> 1 /\ dx <> dy.

(** A static shape describes a runtime shape: the rank, when it is known, is
    the rank of the runtime shape and every known dimension is the runtime
    dimension. *)
Definition describes_dim (d : Dimension) (n : nat) : Prop :=
  match d with
  | None => True
  | Some k => k = n
  end.

Definition describes (ts : TensorShape) (s : Shape) : Prop :=
  match ts with
  | None => True
  | Some ds => Forall2 describes_dim ds s
  end.

Section Distribution.
Context {F : Type} `{Scalar F}.

(** The random source: the standard-normal variate and the fair coin drawn
    for a position of a tensor of the given shape from a sub-seed. *)
Variable normal_source : Shape -> SubSeed -> list nat -> F.
Variable coin_source : Shape -> SubSeed -> list nat -> bool.

(** [tf.random.normal(shape, dtype, seed)]. *)
Definition random_normal (s : Shape) (seed : SubSeed) : Tensor F :=
  mkTensor s (normal_source s seed).

(** Modelled from the spec: [tfp_math.random_rademacher(shape, seed)] draws
    a random sign, +1 or -1, for every position of the shape. *)
Definition random_rademacher (s : Shape) (seed : SubSeed) : Tensor F :=
  mkTensor s (fun idx => if coin_source s seed idx then one else fneg one).

Definition convert_to_tensor (p : TensorLike F) : Tensor F := value p.

Definition _batch_shape_tensor (self : DoublesidedMaxwell F)
    (loc' scale' : option (Tensor F)) : result Shape :=
  let l := match loc' with None => value (loc self) | Some l => l end in
  let s := match scale' with None => value (scale self) | Some s => s end in
  match broadcast_dynamic_shape (shape l) (shape s) with
  | Some r => Ok r
  | None => Raise (InvalidArgumentError "Incompatible shapes")
  end.

Definition _batch_shape (self : DoublesidedMaxwell F) : result TensorShape :=
  broadcast_static_shape (static_shape (loc self))
                         (static_shape (scale self)).

Definition _event_shape_tensor (self : DoublesidedMaxwell F) : Shape := [].

Definition _event_shape (self : DoublesidedMaxwell F) : TensorShape :=
  Some [].

Definition _z (self : DoublesidedMaxwell F) (x : Tensor F)
    (scale' : option (Tensor F)) : result (Tensor F) :=
  centred <- tf_sub x (value (loc self)) ;;
  tf_div centred
    (match scale' with None => value (scale self) | Some s => s end).

Definition _log_prob (self : DoublesidedMaxwell F) (x : Tensor F)
  : result (Tensor F) :=
  let scale := convert_to_tensor (scale self) in
  z <- _z self x (Some scale) ;;
  let square_z := tf_square z in
  scaled <- tf_mul (constant neg_half) square_z ;;
  log_unnormalized_prob <- tf_add scaled (tf_log square_z) ;;
  log_normalization <- tf_add (constant half_log_2pi) (tf_log scale) ;;
  tf_sub log_unnormalized_prob log_normalization.

(** Modelled from the spec: the [Distribution] base class, which is not part
    of the source file, evaluates the density as [exp (log_prob x)]. *)
Definition prob (self : DoublesidedMaxwell F) (x : Tensor F)
  : result (Tensor F) :=
  log_p <- _log_prob self x ;;
  Ok (tf_exp log_p).

Definition _sample_n (self : DoublesidedMaxwell F) (n : nat) (seed : Seed)
  : result (Tensor F) :=
  let seed := SeedStream_new seed "DoublesidedMaxwell" in
  let loc := convert_to_tensor (loc self) in
  let scale := convert_to_tensor (scale self) in
  batch <- _batch_shape_tensor self (Some loc) (Some scale) ;;
  let shape := pad batch 1 0 n in
  let (seed1, seed) := SeedStream_call seed in
  let norm_rvs := random_normal (pad shape 0 1 3) seed1 in
  maxwell_rvs <- tf_norm_last norm_rvs ;;
  let (seed2, seed) := SeedStream_call seed in
  let random_sign := random_rademacher shape seed2 in
  signed <- tf_mul random_sign maxwell_rvs ;;
  scaled <- tf_mul signed scale ;;
  tf_add scaled loc.

Definition _mean (self : DoublesidedMaxwell F) : result (Tensor F) :=
  tf_mul (value (loc self)) (tf_ones_like (value (scale self))).

Definition _stddev (self : DoublesidedMaxwell F) : result (Tensor F) :=
  scaled <- tf_mul (constant sqrt_3) (value (scale self)) ;;
  tf_mul scaled (tf_ones_like (value (loc self))).

Definition _parameter_control_dependencies (self : DoublesidedMaxwell F)
    (is_init : bool) : result (list (Assertion F)) :=
  let assertions := [] in
  _ <- (if is_init then
          match _batch_shape self with
          | Ok _ => Ok tt
          | Raise (ValueError _) =>
              Raise (ValueError
                       (compatible_shapes_message
                          (static_shape (loc self))
                          (static_shape (scale self))))
          | Raise e => Raise e
          end
        else Ok tt) ;;
  if negb (validate_args self) then Ok []
  else
    assertions <-
      (if negb (Bool.eqb is_init (is_ref (scale self)))
       then
         a <- assert_positive (scale self)
                              "Argument `scale` must be positive." ;;
         Ok (assertions ++ [a])
       else Ok assertions) ;;
    Ok assertions.


(** The element [_log_prob] computes from one element of [x], of [loc] and
    of [scale]. *)
Definition log_density (x_i mu sigma : F) : F :=
  let z := fdiv (fsub x_i mu) sigma in
  fsub (fadd (fmul neg_half (fmul z z)) (flog (fmul z z)))
       (fadd half_log_2pi (flog sigma)).

(** The signed Maxwell variate at a position of the sample: the Euclidean
    norm of the three normal values of one sub-seed, with the sign drawn from
    another. *)
Definition signed_maxwell (s : Shape) (normal_seed sign_seed : SubSeed)
    (idx : list nat) : F :=
  let g k := normal_source (s ++ [3]) normal_seed (idx ++ [k]) in
  let sgn := if coin_source s sign_seed idx then one else fneg one in
  fmul sgn
       (fsqrt (fadd (fadd (fmul (g 0) (g 0)) (fmul (g 1) (g 1)))
                    (fmul (g 2) (g 2)))).

(** The element [_sample_n] computes at a position of the sample from the
    normal draws of one sub-seed and the sign of another. *)
Definition sample_element (self : DoublesidedMaxwell F) (s : Shape)
    (normal_seed sign_seed : SubSeed) (idx : list nat) : F :=
  let mu :=
    get (value (loc self)) (bproj idx (shape (value (loc self)))) in
  let sigma :=
    get (value (scale self)) (bproj idx (shape (value (scale self)))) in
  fadd (fmul (signed_maxwell s normal_seed sign_seed idx) sigma) mu.
End Distribution.

(** A parameter given as a tensor: it is not a reference and its static shape
    is its shape. *)
Definition tensor_param {F : Type} (t : Tensor F) : TensorLike F :=
  mkTensorLike (fully_known (shape t)) false t.

(** ** Laws of the scalar arithmetic

    Identities that involve no rounding: they hold for IEEE 754 arithmetic
    as well as for exact arithmetic. *)

Class ScalarLaws (F : Type) `{Scalar F} : Prop := {
  fadd_comm : forall x y : F, fadd x y = fadd y x;
  fmul_comm : forall x y : F, fmul x y = fmul y x;
  fmul_one_l : forall x : F, fmul one x = x;
  fmul_neg_one_l : forall x : F, fmul (fneg one) x = fneg x;
  fmul_fneg_l : forall x y : F, fmul (fneg x) y = fneg (fmul x y)
}.

Arguments ScalarLaws F {_}.

(** Two more such identities, on the sign of a quotient and of a square. *)
Class SignLaws (F : Type) `{Scalar F} : Prop := {
  fdiv_fneg_l : forall a s : F, fdiv (fneg a) s = fneg (fdiv a s);
  fmul_fneg_fneg : forall z : F, fmul (fneg z) (fneg z) = fmul z z
}.

Arguments SignLaws F {_}.

(** ** The extended reals

    Exact arithmetic on the finite values, with the infinities and the
    not-a-number of IEEE 754 and their rules: the arithmetic in which the
    specification states the numeric properties of the density. *)

Inductive xreal : Type :=
| XNaN
| XNegInf
| XPosInf
| XFin (r : R).

Inductive sign : Type := Neg | Zer | Pos.

Definition Rsign (r : R) : sign :=
  if Rlt_dec 0 r then Pos else if Rlt_dec r 0 then Neg else Zer.

Definition sign_neg (s : sign) : sign :=
  match s with Neg => Pos | Zer => Zer | Pos => Neg end.

Definition sign_mul (s t : sign) : sign :=
  match s, t with
  | Zer, _ | _, Zer => Zer
  | Pos, Pos | Neg, Neg => Pos
  | Pos, Neg | Neg, Pos => Neg
  end.

(** The infinity of a sign; there is none of sign zero. *)
Definition xinf (s : sign) : xreal :=
  match s with Pos => XPosInf | Neg => XNegInf | Zer => XNaN end.

Definition xsign (x : xreal) : sign :=
  match x with
  | XNaN => Zer
  | XNegInf => Neg
  | XPosInf => Pos
  | XFin r => Rsign r
  end.

Definition xneg (x : xreal) : xreal :=
  match x with
  | XNaN => XNaN
  | XNegInf => XPosInf
  | XPosInf => XNegInf
  | XFin r => XFin (- r)
  end.

Definition xadd (x y : xreal) : xreal :=
  match x, y with
  | XNaN, _ | _, XNaN => XNaN
  | XFin a, XFin b => XFin (a + b)
  | XPosInf, XNegInf | XNegInf, XPosInf => XNaN
  | XPosInf, _ | _, XPosInf => XPosInf
  | XNegInf, _ | _, XNegInf => XNegInf
  end.

Definition xsub (x y : xreal) : xreal := xadd x (xneg y).

Definition xmul (x y : xreal) : xreal :=
  match x, y with
  | XNaN, _ | _, XNaN => XNaN
  | XFin a, XFin b => XFin (a * b)
  | _, _ => xinf (sign_mul (xsign x) (xsign y))
  end.

(** Division; a zero divisor counts as positive (there is one zero). *)
Definition xdiv (x y : xreal) : xreal :=
  match x, y with
  | XNaN, _ | _, XNaN => XNaN
  | XFin a, XFin b =>
      match Rsign b with
      | Zer => xinf (Rsign a)
      | _ => XFin (a / b)
      end
  | XFin _, _ => XFin 0
  | _, XFin b =>
      xinf (sign_mul (xsign x) (match Rsign b with Zer => Pos | s => s end))
  | _, _ => XNaN
  end.

Definition xlog (x : xreal) : xreal :=
  match x with
  | XNaN | XNegInf => XNaN
  | XPosInf => XPosInf
  | XFin r =>
      match Rsign r with
      | Pos => XFin (ln r)
      | Zer => XNegInf
      | Neg => XNaN
      end
  end.

Definition xexp (x : xreal) : xreal :=
  match x with
  | XNaN => XNaN
  | XNegInf => XFin 0
  | XPosInf => XPosInf
  | XFin r => XFin (exp r)
  end.

Definition xsqrt (x : xreal) : xreal :=
  match x with
  | XNaN | XNegInf => XNaN
  | XPosInf => XPosInf
  | XFin r =>
      match Rsign r with
      | Neg => XNaN
      | _ => XFin (sqrt r)
      end
  end.

Definition xpositiveb (x : xreal) : bool :=
  match x with
  | XFin r => if Rlt_dec 0 r then true else false
  | XPosInf => true
  | _ => false
  end.

#[export] Instance xreal_Scalar : Scalar xreal := {|
  fadd := xadd;
  fsub := xsub;
  fmul := xmul;
  fdiv := xdiv;
  fneg := xneg;
  flog := xlog;
  fexp := xexp;
  fsqrt := xsqrt;
  fpositive := xpositiveb;
  zero := XFin 0;
  one := XFin 1;
  neg_half := XFin (- (1 / 2));
  half_log_2pi := XFin (1 / 2 * ln (2 * PI));
  sqrt_3 := XFin (sqrt 3)
|}.

(** ** Single-precision floats

    The IEEE 754 binary32 arithmetic of the default [dtype], [tf.float32]:
    24 bits of precision, correctly rounded to nearest even, with signed
    zeros, infinities and not-a-number.  The logarithm and the exponential
    of the runtime are not specified bit for bit; the ones here have the
    special values of the C library and are computed elsewhere in the same
    arithmetic, from
    [ln x = e ln 2 + 2 atanh ((m - 1) / (m + 1))] for [x = m 2^e] and from
    the power series of the exponential. *)
Module Float32.
Import SpecFloat.

Definition prec : Z := 24.
Definition emax : Z := 128.
Definition float32 : Type := spec_float.

Definition add : float32 -> float32 -> float32 := SFadd prec emax.
Definition sub : float32 -> float32 -> float32 := SFsub prec emax.
Definition mul : float32 -> float32 -> float32 := SFmul prec emax.
Definition div : float32 -> float32 -> float32 := SFdiv prec emax.
Definition sqrt : float32 -> float32 := SFsqrt prec emax.
Definition opp : float32 -> float32 := SFopp.
Definition ltb : float32 -> float32 -> bool := SFltb.

(** The float nearest to an integer. *)
Definition of_Z (z : Z) : float32 := binary_normalize prec emax z 0 false.

Definition is_finite (x : float32) : bool :=
  match x with
  | S754_zero _ | S754_finite _ _ _ => true
  | _ => false
  end.

(** The float nearest to [ln 2]. *)
Definition ln2 : float32 := S754_finite false 11629080 (-24).

(** [1/n + s2 (1/(n+2) + s2 (...))], [k] terms. *)
Fixpoint atanh_series (k : nat) (n : Z) (s2 : float32) : float32 :=
  match k with
  | O => S754_zero false
  | S k' =>
      add (div (of_Z 1) (of_Z n)) (mul s2 (atanh_series k' (n + 2) s2))
  end.

Definition log (x : float32) : float32 :=
  match x with
  | S754_nan => S754_nan
  | S754_zero _ => S754_infinity true
  | S754_infinity false => x
  | S754_infinity true => S754_nan
  | S754_finite true _ _ => S754_nan
  | S754_finite false _ _ =>
      let (m, e) := SFfrexp prec emax x in
      let s := div (sub m (of_Z 1)) (add m (of_Z 1)) in
      add (mul (of_Z e) ln2)
          (mul (mul (of_Z 2) s) (atanh_series 12 1 (mul s s)))
  end.

(** [1 + y/n (1 + y/(n+1) (...))], [k] terms. *)
Fixpoint exp_series (k : nat) (n : Z) (y : float32) : float32 :=
  match k with
  | O => of_Z 1
  | S k' => add (of_Z 1) (mul (div y (of_Z n)) (exp_series k' (n + 1) y))
  end.

Fixpoint square_times (j : nat) (t : float32) : float32 :=
  match j with
  | O => t
  | S j' => square_times j' (mul t t)
  end.

Definition exp (x : float32) : float32 :=
  match x with
  | S754_nan => S754_nan
  | S754_zero _ => of_Z 1
  | S754_infinity false => x
  | S754_infinity true => S754_zero false
  | S754_finite _ _ _ =>
      let j := Z.max 0 (snd (SFfrexp prec emax x)) in
      square_times (Z.to_nat j) (exp_series 12 1 (SFldexp prec emax x (- j)))
  end.
End Float32.

#[export] Instance float32_Scalar : Scalar Float32.float32 := {|
  fadd := Float32.add;
  fsub := Float32.sub;
  fmul := Float32.mul;
  fdiv := Float32.div;
  fneg := Float32.opp;
  flog := Float32.log;
  fexp := Float32.exp;
  fsqrt := Float32.sqrt;
  fpositive := Float32.ltb (SpecFloat.S754_zero false);
  zero := SpecFloat.S754_zero false;
  one := Float32.of_Z 1;
  neg_half := SpecFloat.S754_finite true 8388608 (-24);
  half_log_2pi := SpecFloat.S754_finite false 15417230 (-24);
  sqrt_3 := SpecFloat.S754_finite false 14529495 (-23)
|}.

(** The first distribution of the example batch in single precision,
    [DoublesidedMaxwell(loc=1., scale=11.)], and the offset [4e-8]. *)
Definition float32_example : DoublesidedMaxwell Float32.float32 :=
  mkDoublesidedMaxwell
    (tensor_param (constant (Float32.of_Z 1)))
    (tensor_param (constant (Float32.of_Z 11)))
    false true "doublesided_maxwell".

Definition float32_offset : Tensor Float32.float32 :=
  constant (Float32.div (Float32.of_Z 4) (Float32.of_Z 100000000)).

(** The batch of two distributions of the class documentation,
    [DoublesidedMaxwell(loc=[1, 2.], scale=[11, 22.])]. *)
Definition example_loc : Tensor xreal := vector XNaN [XFin 1; XFin 2].
Definition example_scale : Tensor xreal := vector XNaN [XFin 11; XFin 22].

Definition example_dist : DoublesidedMaxwell xreal :=
  mkDoublesidedMaxwell (tensor_param example_loc) (tensor_param example_scale)
                       false true "doublesided_maxwell".

(** The same batch with a scale that is not valid: a negative entry and a
    not-a-number. *)
Definition example_invalid_scale : DoublesidedMaxwell xreal :=
  mkDoublesidedMaxwell
    (tensor_param example_loc)
    (tensor_param (vector XNaN [XFin (-1); XNaN]))
    false true "doublesided_maxwell".

(** The example batch with validation enabled. *)
Definition example_validating : DoublesidedMaxwell xreal :=
  mkDoublesidedMaxwell (tensor_param example_loc) (tensor_param example_scale)
                       true true "doublesided_maxwell".

(** Two locations and three scales, without validation: the shapes [(2,)]
    and [(3,)] do not broadcast. *)
Definition example_incompatible : DoublesidedMaxwell xreal :=
  mkDoublesidedMaxwell
    (tensor_param example_loc)
    (tensor_param (vector XNaN [XFin 1; XFin 2; XFin 3]))
    false true "doublesided_maxwell".

(** The standard distribution of a batch shape: [loc = 0] and [scale = 1] at
    every position. *)
Definition standard_maxwell (batch : Shape) : DoublesidedMaxwell xreal :=
  mkDoublesidedMaxwell
    (tensor_param (mkTensor batch (fun _ => XFin 0)))
    (tensor_param (mkTensor batch (fun _ => XFin 1)))
    false true "doublesided_maxwell".

(** The example batch as it is when the static shapes are not fully known:
    [loc] has a known rank and an unknown dimension, [scale] is a reference
    of unknown rank. *)
Definition example_partly_known : DoublesidedMaxwell xreal :=
  mkDoublesidedMaxwell
    (mkTensorLike (Some [None]) false example_loc)
    (mkTensorLike None true example_scale)
    true true "doublesided_maxwell".

(** The batch with the scale that is not valid, with validation enabled. *)
Definition example_invalid_validating : DoublesidedMaxwell xreal :=
  mkDoublesidedMaxwell
    (tensor_param example_loc)
    (tensor_param (vector XNaN [XFin (-1); XNaN]))
    true true "doublesided_maxwell".

(** Parameters whose static shapes are partly known, [(None, 3)] and
    [(None, 4)]: the last dimensions are known and differ. *)
Definition example_partly_conflicting : DoublesidedMaxwell xreal :=
  mkDoublesidedMaxwell
    (mkTensorLike (Some [None; Some 3]) false
                  (mkTensor [5; 3] (fun _ => XFin 0)))
    (mkTensorLike (Some [None; Some 4]) false
                  (mkTensor [5; 4] (fun _ => XFin 1)))
    false true "doublesided_maxwell".


(** A random source for the examples: every normal variate is 1 and the coin
    of a sub-seed is the parity of its number in the stream. *)
Definition example_normal_source (s : Shape) (seed : SubSeed)
    (idx : list nat) : xreal := XFin 1.

Definition example_coin_source (s : Shape) (seed : SubSeed)
    (idx : list nat) : bool := Nat.odd (draw_number seed).

(** A finite value, and a value that is positive (finite or infinite). *)
Definition xfinite (x : xreal) : Prop :=
  match x with XFin _ => True | _ => False end.

Definition xpositive (x : xreal) : Prop :=
  match x with
  | XFin r => (0 < r)%R
  | XPosInf => True
  | _ => False
  end.

(** The elements of a tensor all satisfy [P]. *)
Definition all_elements {F : Type} (P : F -> Prop) (t : Tensor F) : Prop :=
  forall idx, in_bounds idx (shape t) -> P (get t idx).

(** * Broadcasting lemmas *)

Example broadcast_equal : broadcast_dynamic_shape [2] [2] = Some [2].
Proof. reflexivity. Qed.

Example broadcast_stretch : broadcast_dynamic_shape [3; 1] [2] = Some [3; 2].
Proof. reflexivity. Qed.

Example broadcast_scalar : broadcast_dynamic_shape [] [4; 5] = Some [4; 5].
Proof. reflexivity. Qed.

Example broadcast_mismatch : broadcast_dynamic_shape [2] [3] = None.
Proof. reflexivity. Qed.

Example bproj_drops_leading_axes : bproj [2; 1] [2] = [1].
Proof. reflexivity. Qed.

Example bproj_stretched_axis : bproj [2; 1] [3; 1] = [2; 0].
Proof. reflexivity. Qed.

Example static_unknown_dimension :
  broadcast_static_shape (Some [None; Some 3]) (Some [Some 3])
  = Ok (Some [None; Some 3]).
Proof. reflexivity. Qed.

Example static_known_conflict :
  broadcast_static_shape (Some [None; Some 3]) (Some [None; Some 4])
  = Raise (ValueError "Incompatible shapes for broadcasting").
Proof. reflexivity. Qed.

Example static_shape_strings :
  TensorShape_str (fully_known [2]) = "(2,)"%string /\
  TensorShape_str (fully_known [3; 2]) = "(3, 2)"%string /\
  TensorShape_str (Some [None; Some 12]) = "(None, 12)"%string /\
  TensorShape_str None = "<unknown>"%string.
Proof. repeat split. Qed.

Create HintDb bcast.
#[local] Hint Constructors fits_rev : bcast.

Lemma bcast_dim_inv x y d :
  bcast_dim x y = Some d -> (x = 1 \/ x = d) /\ (y = 1 \/ y = d).
Proof.
  unfold bcast_dim.
  destruct (Nat.eqb_spec x 1); [intros [= <-]; auto|].
  destruct (Nat.eqb_spec y 1); [intros [= <-]; auto|].
  destruct (Nat.eqb_spec x y); [intros [= <-]; auto|discriminate].
Qed.

Lemma bcast_dim_fits x y : x = 1 \/ x = y -> bcast_dim x y = Some y.
Proof.
  unfold bcast_dim. intros [->| ->]; [reflexivity|].
  destruct (Nat.eqb_spec y 1) as [->|]; [reflexivity|].
  now rewrite Nat.eqb_refl.
Qed.

Lemma bcast_dim_fits_r x y : x = 1 \/ x = y -> bcast_dim y x = Some y.
Proof.
  unfold bcast_dim. intros [->| ->].
  - destruct (Nat.eqb_spec y 1) as [->|]; reflexivity.
  - destruct (Nat.eqb_spec y 1) as [->|]; [reflexivity|].
    now rewrite Nat.eqb_refl.
Qed.

Lemma fits_rev_refl c : fits_rev c c.
Proof. induction c; auto with bcast. Qed.

Lemma fits_rev_trans a b c : fits_rev a b -> fits_rev b c -> fits_rev a c.
Proof.
  intros Hab; revert c.
  induction Hab as [|x a y b Hx Hab IH]; intros e Hbe; [constructor|].
  inversion Hbe as [|? ? z e' Hy Hbe']; subst.
  constructor; [|auto].
  destruct Hx as [->| ->]; [now left|exact Hy].
Qed.

Lemma bcast_rev_nil_r a : bcast_rev a [] = Some a.
Proof. now destruct a. Qed.

Lemma bcast_rev_fits a b c :
  bcast_rev a b = Some c -> fits_rev a c /\ fits_rev b c.
Proof.
  revert b c; induction a as [|x a IH]; intros b c.
  - simpl. intros [= <-]. split; [constructor|apply fits_rev_refl].
  - destruct b as [|y b].
    + simpl. intros [= <-]. split; [apply fits_rev_refl|constructor].
    + simpl.
      destruct (bcast_dim x y) as [d|] eqn:Hd; [|discriminate].
      destruct (bcast_rev a b) as [r|] eqn:Hr; [|discriminate].
      intros [= <-].
      destruct (bcast_dim_inv _ _ Hd) as [Hx Hy].
      destruct (IH _ _ Hr) as [Ha Hb].
      split; constructor; assumption.
Qed.

Lemma fits_rev_bcast a c : fits_rev a c -> bcast_rev a c = Some c.
Proof.
  induction 1 as [|x a y c Hx _ IH]; [reflexivity|].
  simpl. now rewrite (bcast_dim_fits Hx), IH.
Qed.

Lemma fits_rev_bcast_r a c : fits_rev a c -> bcast_rev c a = Some c.
Proof.
  induction 1 as [c|x a y c Hx _ IH]; [apply bcast_rev_nil_r|].
  simpl. now rewrite (bcast_dim_fits_r Hx), IH.
Qed.

(** Broadcasting is associative where the right-nested form is defined. *)
Lemma bcast_dim_assoc x l s b r :
  bcast_dim l s = Some b -> bcast_dim x b = Some r ->
  exists m, bcast_dim x l = Some m /\ bcast_dim m s = Some r.
Proof.
  unfold bcast_dim. intros Hb Hr.
  repeat match goal with
         | H : context [Nat.eqb ?u ?v] |- _ => destruct (Nat.eqb_spec u v)
         end;
    try discriminate;
    injection Hb as <-; injection Hr as <-; subst;
    repeat match goal with
           | |- context [Nat.eqb ?u ?v] => destruct (Nat.eqb_spec u v)
           end;
    try congruence;
    (eexists; split; [reflexivity|]);
    repeat match goal with
           | |- context [Nat.eqb ?u ?v] => destruct (Nat.eqb_spec u v)
           end;
    congruence.
Qed.

Lemma bcast_rev_assoc x l s b r :
  bcast_rev l s = Some b -> bcast_rev x b = Some r ->
  exists m, bcast_rev x l = Some m /\ bcast_rev m s = Some r.
Proof.
  revert l s b r; induction x as [|dx x IH]; intros l s b r Hls Hxb.
  - simpl in Hxb. injection Hxb as <-. exists l. now split.
  - destruct l as [|dl l].
    + simpl in Hls. injection Hls as <-.
      exists (dx :: x). split; [reflexivity|exact Hxb].
    + destruct s as [|ds s].
      * simpl in Hls. injection Hls as <-.
        destruct (bcast_rev (dx :: x) (dl :: l)) as [m|] eqn:Hm;
          [|rewrite Hxb in Hm; discriminate].
        exists m. split; [reflexivity|].
        rewrite bcast_rev_nil_r. congruence.
      * simpl in Hls.
        destruct (bcast_dim dl ds) as [db|] eqn:Hd; [|discriminate].
        destruct (bcast_rev l s) as [b'|] eqn:Hb; [|discriminate].
        injection Hls as <-. simpl in Hxb.
        destruct (bcast_dim dx db) as [dr|] eqn:Hdr; [|discriminate].
        destruct (bcast_rev x b') as [r'|] eqn:Hr; [|discriminate].
        injection Hxb as <-.
        destruct (bcast_dim_assoc _ _ _ Hd Hdr) as (dm & Hdm1 & Hdm2).
        destruct (IH _ _ _ _ Hb Hr) as (m & Hm1 & Hm2).
        exists (dm :: m). simpl.
        now rewrite Hdm1, Hm1, Hdm2, Hm2.
Qed.

Lemma proj_rev_nil_r i : proj_rev i [] = [].
Proof. now destruct i. Qed.

(** Reading through an intermediate broadcast is reading directly. *)
Lemma proj_rev_fits a c i :
  fits_rev a c -> proj_rev (proj_rev i c) a = proj_rev i a.
Proof.
  intros Hac; revert i.
  induction Hac as [c|x a y c Hx _ IH]; intros i.
  - now rewrite !proj_rev_nil_r.
  - destruct i as [|k i]; [reflexivity|]. simpl. rewrite IH. f_equal.
    destruct (Nat.eqb_spec x 1) as [|Hx1]; [reflexivity|].
    destruct Hx as [ | -> ]; [contradiction|].
    now destruct (Nat.eqb_spec y 1).
Qed.

Lemma Forall2_lt_rev (i s : list nat) :
  Forall2 lt i s -> Forall2 lt (rev i) (rev s).
Proof.
  induction 1 as [|k d i s Hk _ IH]; [constructor|].
  simpl. apply Forall2_app; [exact IH|now constructor].
Qed.

Lemma proj_rev_in_bounds a c i :
  fits_rev a c -> Forall2 lt i c -> Forall2 lt (proj_rev i a) a.
Proof.
  intros Hac; revert i.
  induction Hac as [c|x a y c Hx _ IH]; intros i Hi.
  - destruct i; constructor.
  - inversion Hi as [|k ? i' ? Hk Hi']; subst. simpl.
    constructor; [|now apply IH].
    destruct (Nat.eqb_spec x 1) as [->|Hx1]; [lia|].
    destruct Hx as [ | -> ]; [contradiction|exact Hk].
Qed.

Lemma proj_rev_id i s : Forall2 lt i s -> proj_rev i s = i.
Proof.
  induction 1 as [|k d i s Hk _ IH]; [reflexivity|].
  simpl. rewrite IH. f_equal.
  destruct (Nat.eqb_spec d 1); [lia|reflexivity].
Qed.

(** The same facts on shapes as the code has them. *)

Lemma broadcast_fits a b c :
  broadcast_dynamic_shape a b = Some c -> fits a c /\ fits b c.
Proof.
  unfold broadcast_dynamic_shape, fits.
  destruct (bcast_rev (rev a) (rev b)) as [r|] eqn:Hr; [|discriminate].
  simpl. intros [= <-]. rewrite rev_involutive.
  now apply bcast_rev_fits.
Qed.

Lemma fits_refl c : fits c c.
Proof. apply fits_rev_refl. Qed.

Lemma fits_trans a b c : fits a b -> fits b c -> fits a c.
Proof. apply fits_rev_trans. Qed.

Lemma fits_scalar c : fits [] c.
Proof. constructor. Qed.

Lemma fits_broadcast a c : fits a c -> broadcast_dynamic_shape a c = Some c.
Proof.
  intros Hac. unfold broadcast_dynamic_shape.
  rewrite (fits_rev_bcast Hac). simpl. now rewrite rev_involutive.
Qed.

Lemma fits_broadcast_r a c : fits a c -> broadcast_dynamic_shape c a = Some c.
Proof.
  intros Hac. unfold broadcast_dynamic_shape.
  rewrite (fits_rev_bcast_r Hac). simpl. now rewrite rev_involutive.
Qed.

Lemma broadcast_assoc x l s b r :
  broadcast_dynamic_shape l s = Some b ->
  broadcast_dynamic_shape x b = Some r ->
  exists m, broadcast_dynamic_shape x l = Some m /\
            broadcast_dynamic_shape m s = Some r.
Proof.
  unfold broadcast_dynamic_shape.
  destruct (bcast_rev (rev l) (rev s)) as [b'|] eqn:Hb; [|discriminate].
  simpl. intros [= <-]. rewrite rev_involutive.
  destruct (bcast_rev (rev x) b') as [r'|] eqn:Hr; [|discriminate].
  simpl. intros [= <-].
  destruct (bcast_rev_assoc _ _ _ Hb Hr) as (m & Hm1 & Hm2).
  exists (rev m). rewrite Hm1. simpl. rewrite rev_involutive, Hm2.
  now split.
Qed.

Lemma bproj_fits a c i : fits a c -> bproj (bproj i c) a = bproj i a.
Proof.
  intros Hac. unfold bproj. rewrite rev_involutive.
  now rewrite (proj_rev_fits _ Hac).
Qed.

Lemma bproj_in_bounds a c i :
  fits a c -> in_bounds i c -> in_bounds (bproj i a) a.
Proof.
  intros Hac Hi. unfold in_bounds, bproj.
  rewrite <- (rev_involutive a) at 2.
  apply Forall2_lt_rev.
  apply (proj_rev_in_bounds Hac). now apply Forall2_lt_rev.
Qed.

Lemma bproj_id i s : in_bounds i s -> bproj i s = i.
Proof.
  intros Hi. unfold bproj.
  rewrite (proj_rev_id (Forall2_lt_rev Hi)). apply rev_involutive.
Qed.

(** * Element-wise evaluation of the distribution's methods *)

Section Structure.
Context {F : Type} `{Scalar F}.

Lemma batch_shape_tensor_ok (self : DoublesidedMaxwell F) l s batch :
  _batch_shape_tensor self l s = Ok batch <->
  broadcast_dynamic_shape
    (shape (match l with None => value (loc self) | Some l => l end))
    (shape (match s with None => value (scale self) | Some s => s end))
  = Some batch.
Proof.
  unfold _batch_shape_tensor.
  destruct (broadcast_dynamic_shape _ _); split; congruence.
Qed.

(** The source broadcasts [x] against [loc] first and the result against
    [scale]. *)
Lemma log_prob_elements
    (self : DoublesidedMaxwell F) (x : Tensor F) (m out : Shape) :
  broadcast_dynamic_shape (shape x) (shape (value (loc self))) = Some m ->
  broadcast_dynamic_shape m (shape (value (scale self))) = Some out ->
  exists t,
    _log_prob self x = Ok t /\ shape t = out /\
    forall idx,
      get t idx =
      log_density
        (get x (bproj idx (shape x)))
        (get (value (loc self)) (bproj idx (shape (value (loc self)))))
        (get (value (scale self)) (bproj idx (shape (value (scale self))))).
Proof.
  intros Hm Hms.
  destruct (broadcast_fits _ _ Hm) as [Hxm Hlm].
  destruct (broadcast_fits _ _ Hms) as [Hmo Hso].
  unfold _log_prob, _z, convert_to_tensor, tf_sub, tf_div, tf_mul, tf_add,
    tf_square, tf_log, unop, constant, binop.
  cbn [shape get bind]. rewrite Hm. cbn [shape get bind].
  rewrite Hms. cbn [shape get bind].
  rewrite (fits_broadcast (fits_scalar out)). cbn [shape get bind].
  rewrite (fits_broadcast (fits_refl out)). cbn [shape get bind].
  rewrite (fits_broadcast (fits_scalar _)). cbn [shape get bind].
  rewrite (fits_broadcast_r Hso). cbn [shape get bind].
  eexists. split; [reflexivity|]. split; [reflexivity|].
  intros idx. cbn [shape get]. unfold log_density.
  rewrite !(bproj_fits _ (fits_refl out)), !(bproj_fits _ Hmo),
    !(bproj_fits _ Hxm), !(bproj_fits _ Hlm), !(bproj_fits _ Hso),
    !(bproj_fits _ (fits_refl _)).
  reflexivity.
Qed.

(** [_log_prob] raises exactly when the shapes do not broadcast, and the
    exception does not depend on the elements. *)
Lemma log_prob_raises_loc (self : DoublesidedMaxwell F) (x : Tensor F) :
  broadcast_dynamic_shape (shape x) (shape (value (loc self))) = None ->
  _log_prob self x = Raise (InvalidArgumentError "Incompatible shapes").
Proof.
  intros Hm. unfold _log_prob, _z, tf_sub, binop. now rewrite Hm.
Qed.

Lemma log_prob_raises_scale
    (self : DoublesidedMaxwell F) (x : Tensor F) (m : Shape) :
  broadcast_dynamic_shape (shape x) (shape (value (loc self))) = Some m ->
  broadcast_dynamic_shape m (shape (value (scale self))) = None ->
  _log_prob self x = Raise (InvalidArgumentError "Incompatible shapes").
Proof.
  intros Hm Hms.
  unfold _log_prob, _z, convert_to_tensor, tf_sub, tf_div, binop.
  rewrite Hm. cbn [shape get bind]. now rewrite Hms.
Qed.

(** C1.  When [x] broadcasts against the batch shape, [_log_prob] returns a
    tensor of the broadcast shape of [x], [loc] and [scale] whose element
    at every position is
    [(-0.5 * z^2 + log (z^2)) - (0.5 * log (2 pi) + log scale)] with
    [z = (x - loc) / scale], each operand read at that position of the
    broadcast. *)
Theorem log_prob_elementwise
    (self : DoublesidedMaxwell F) (x : Tensor F) (batch out : Shape) :
  _batch_shape_tensor self None None = Ok batch ->
  broadcast_dynamic_shape (shape x) batch = Some out ->
  exists t,
    _log_prob self x = Ok t /\ shape t = out /\
    forall idx,
      let x_i := get x (bproj idx (shape x)) in
      let mu :=
        get (value (loc self)) (bproj idx (shape (value (loc self)))) in
      let sigma :=
        get (value (scale self)) (bproj idx (shape (value (scale self)))) in
      let z := fdiv (fsub x_i mu) sigma in
      get t idx =
      fsub (fadd (fmul neg_half (fmul z z)) (flog (fmul z z)))
           (fadd half_log_2pi (flog sigma)).
Proof.
  intros Hb Hout. apply batch_shape_tensor_ok in Hb.
  destruct (broadcast_assoc _ _ _ Hb Hout) as (m & Hm & Hms).
  exact (log_prob_elements self x Hm Hms).
Qed.

Lemma batch_shape_tensor_eq (self : DoublesidedMaxwell F) :
  _batch_shape_tensor self (Some (value (loc self)))
                           (Some (value (scale self))) =
  _batch_shape_tensor self None None.
Proof. reflexivity. Qed.
End Structure.

(** C1 at the example batch and [x = [0, 1.5]]. *)
Lemma log_prob_elementwise_witness :
  _batch_shape_tensor example_dist None None = Ok [2] /\
  broadcast_dynamic_shape (shape (vector XNaN [XFin 0; XFin (3 / 2)])) [2]
  = Some [2] /\
  exists t,
    _log_prob example_dist (vector XNaN [XFin 0; XFin (3 / 2)]) = Ok t /\
    shape t = [2].
Proof.
  split; [reflexivity|]. split; [reflexivity|].
  destruct (@log_prob_elementwise xreal _ example_dist
              (vector XNaN [XFin 0; XFin (3 / 2)]) [2] [2])
    as (t & Ht & Hs & _); [reflexivity|reflexivity|].
  exists t. now split.
Defined.

Lemma fits_rev_app a c l : fits_rev a c -> fits_rev a (c ++ l).
Proof. induction 1; simpl; constructor; assumption. Qed.

Lemma fits_cons_r a c n : fits a c -> fits a (n :: c).
Proof. unfold fits. simpl. apply fits_rev_app. Qed.

Lemma pad_front (s : Shape) n : pad s 1 0 n = n :: s.
Proof. unfold pad. simpl. now rewrite app_nil_r. Qed.

Lemma pad_back (s : Shape) c : pad s 0 1 c = s ++ [c].
Proof. reflexivity. Qed.

(** * Sampling *)

Section Sampling.
Context {F : Type} `{Scalar F}.
Variable normal_source : Shape -> SubSeed -> list nat -> F.
Variable coin_source : Shape -> SubSeed -> list nat -> bool.

Lemma norm_last_three (s : Shape) (f : list nat -> F) :
  tf_norm_last (mkTensor (s ++ [3]) f) =
  Ok (mkTensor s (fun idx =>
        fsqrt (fadd (fadd (fmul (f (idx ++ [0])) (f (idx ++ [0])))
                          (fmul (f (idx ++ [1])) (f (idx ++ [1]))))
                    (fmul (f (idx ++ [2])) (f (idx ++ [2])))))).
Proof.
  unfold tf_norm_last. cbn [shape get].
  destruct (s ++ [3]) eqn:Hs; [now destruct s|]. rewrite <- Hs.
  now rewrite removelast_last, last_last.
Qed.

(** The sample is read off the draws position by position. *)
Lemma sample_n_elements (self : DoublesidedMaxwell F) (n : nat) (seed : Seed)
    (batch : Shape) :
  _batch_shape_tensor self None None = Ok batch ->
  exists t,
    _sample_n normal_source coin_source self n seed = Ok t /\
    shape t = n :: batch /\
    forall idx, in_bounds idx (n :: batch) ->
      get t idx =
      sample_element normal_source coin_source self (n :: batch)
        (mkSubSeed seed "DoublesidedMaxwell" 1)
        (mkSubSeed seed "DoublesidedMaxwell" 2) idx.
Proof.
  intros Hb. unfold _sample_n, convert_to_tensor.
  rewrite batch_shape_tensor_eq, Hb. cbn [bind].
  apply batch_shape_tensor_ok in Hb.
  destruct (broadcast_fits _ _ Hb) as [Hl Hs].
  apply (fits_cons_r n) in Hl, Hs.
  rewrite pad_front, pad_back.
  unfold SeedStream_call, SeedStream_new, random_normal, random_rademacher.
  cbn [counter original_seed salt].
  rewrite norm_last_three. cbn [bind].
  unfold tf_mul, tf_add, binop. cbn [shape get bind].
  rewrite (fits_broadcast (fits_refl _)). cbn [shape get bind].
  rewrite (fits_broadcast_r Hs). cbn [shape get bind].
  rewrite (fits_broadcast_r Hl). cbn [shape get bind].
  eexists. split; [reflexivity|]. split; [reflexivity|].
  intros idx Hidx. cbn [shape get].
  rewrite !(bproj_id Hidx). reflexivity.
Qed.
End Sampling.

(** * The extended reals satisfy the laws *)

Lemma Rsign_pos r : (0 < r)%R -> Rsign r = Pos.
Proof. intros Hr. unfold Rsign. now destruct (Rlt_dec 0 r). Qed.

Lemma Rsign_neg r : (r < 0)%R -> Rsign r = Neg.
Proof.
  intros Hr. unfold Rsign.
  destruct (Rlt_dec 0 r); [lra|]. now destruct (Rlt_dec r 0).
Qed.

Lemma Rsign_zero : Rsign 0 = Zer.
Proof.
  unfold Rsign. destruct (Rlt_dec 0 0); [lra|].
  destruct (Rlt_dec 0 0); [lra|reflexivity].
Qed.

Lemma Rsign_opp r : Rsign (- r) = sign_neg (Rsign r).
Proof.
  destruct (Rtotal_order r 0) as [Hr|[->|Hr]].
  - rewrite (Rsign_neg Hr), Rsign_pos; [reflexivity|lra].
  - now rewrite Ropp_0, Rsign_zero.
  - rewrite (Rsign_pos Hr), Rsign_neg; [reflexivity|lra].
Qed.

Lemma sign_mul_comm s t : sign_mul s t = sign_mul t s.
Proof. now destruct s, t. Qed.

Lemma sign_mul_neg_l s t : sign_mul (sign_neg s) t = sign_neg (sign_mul s t).
Proof. now destruct s, t. Qed.

Lemma xinf_neg s : xinf (sign_neg s) = xneg (xinf s).
Proof. now destruct s. Qed.

Lemma xadd_comm x y : xadd x y = xadd y x.
Proof. destruct x, y; simpl; try reflexivity. f_equal. ring. Qed.

Lemma xmul_comm x y : xmul x y = xmul y x.
Proof.
  destruct x, y; simpl; try reflexivity;
    try (now rewrite sign_mul_comm).
  f_equal. ring.
Qed.

Lemma xmul_one_l x : xmul (XFin 1) x = x.
Proof.
  destruct x; simpl; try reflexivity;
    try (rewrite Rsign_pos by lra; reflexivity).
  f_equal. ring.
Qed.

Lemma xmul_neg_one_l x : xmul (xneg (XFin 1)) x = xneg x.
Proof.
  destruct x; simpl; try reflexivity;
    try (rewrite Rsign_neg by lra; reflexivity).
  f_equal. ring.
Qed.

Lemma xmul_xneg_l x y : xmul (xneg x) y = xneg (xmul x y).
Proof.
  destruct x, y; simpl; try reflexivity;
    try (rewrite Rsign_opp, sign_mul_neg_l, xinf_neg; reflexivity);
    try (rewrite <- xinf_neg; destruct (Rsign r); reflexivity).
  f_equal. ring.
Qed.

#[export] Instance xreal_ScalarLaws : ScalarLaws xreal.
Proof.
  constructor.
  - exact xadd_comm.
  - exact xmul_comm.
  - exact xmul_one_l.
  - exact xmul_neg_one_l.
  - exact xmul_xneg_l.
Qed.

Section SamplingLaws.
Context {F : Type} `{ScalarLaws F}.
Variable normal_source : Shape -> SubSeed -> list nat -> F.
Variable coin_source : Shape -> SubSeed -> list nat -> bool.

Lemma fmul_one_r (x : F) : fmul x one = x.
Proof. now rewrite fmul_comm, fmul_one_l. Qed.

(** A sign moves across a product: [(s * m) * sigma = (sigma * s) * m] for
    [s] either [1] or [-1]. *)
Lemma sign_scale_swap (b : bool) (m sigma : F) :
  let s := if b then one else fneg one in
  fmul (fmul s m) sigma = fmul (fmul sigma s) m.
Proof.
  destruct b; cbn zeta.
  - now rewrite fmul_one_l, fmul_one_r, fmul_comm.
  - rewrite (fmul_comm sigma), !fmul_neg_one_l, !fmul_fneg_l.
    now rewrite (fmul_comm m).
Qed.

(** C2.  For every sample count and seed, [_sample_n] returns a tensor of
    shape [[n] + batch_shape] whose element at every position is
    [loc + scale * s * sqrt (g1^2 + g2^2 + g3^2)], where [g1], [g2], [g3]
    are the three values the normal draw (made with the first sub-seed, at
    shape [[n] + batch_shape + [3]]) has for that position and [s] is the
    sign, [1] or [-1], the Rademacher draw (made with the second sub-seed)
    has there. *)
Theorem sample_n_formula (self : DoublesidedMaxwell F) (n : nat) (seed : Seed)
    (batch : Shape) :
  _batch_shape_tensor self None None = Ok batch ->
  exists t,
    _sample_n normal_source coin_source self n seed = Ok t /\
    shape t = n :: batch /\
    forall idx, in_bounds idx (n :: batch) ->
      let stream := SeedStream_new seed "DoublesidedMaxwell" in
      let seed1 := fst (SeedStream_call stream) in
      let seed2 := fst (SeedStream_call (snd (SeedStream_call stream))) in
      let normals :=
        random_normal normal_source ((n :: batch) ++ [3]) seed1 in
      let g k := get normals (idx ++ [k]) in
      let s := get (random_rademacher coin_source (n :: batch) seed2) idx in
      let mu :=
        get (value (loc self)) (bproj idx (shape (value (loc self)))) in
      let sigma :=
        get (value (scale self)) (bproj idx (shape (value (scale self)))) in
      (s = one \/ s = fneg one) /\
      get t idx =
      fadd mu
           (fmul (fmul sigma s)
                 (fsqrt (fadd (fadd (fmul (g 0) (g 0)) (fmul (g 1) (g 1)))
                              (fmul (g 2) (g 2))))).
Proof.
  intros Hb.
  destruct (sample_n_elements normal_source coin_source self n seed Hb)
    as (t & Ht & Hs & Hget).
  exists t. split; [exact Ht|]. split; [exact Hs|].
  intros idx Hidx. cbn zeta. cbn [random_normal random_rademacher get fst snd
    SeedStream_call SeedStream_new counter original_seed salt].
  split; [destruct (coin_source _ _ _); auto|].
  rewrite (Hget idx Hidx). unfold sample_element, signed_maxwell.
  now rewrite fadd_comm, sign_scale_swap.
Qed.
End SamplingLaws.

(** C2 at the example batch: three draws with seed 42. *)
Lemma sample_n_formula_witness :
  _batch_shape_tensor example_dist None None = Ok [2] /\
  exists t,
    _sample_n example_normal_source example_coin_source example_dist 3
              (Some 42%Z) = Ok t /\
    shape t = [3; 2].
Proof.
  split; [reflexivity|].
  destruct (@sample_n_formula xreal _ _ example_normal_source
              example_coin_source example_dist 3 (Some 42%Z) [2])
    as (t & Ht & Hs & _); [reflexivity|].
  exists t. now split.
Defined.

Lemma bcast_dim_comm x y : bcast_dim x y = bcast_dim y x.
Proof.
  unfold bcast_dim.
  destruct (Nat.eqb_spec x 1), (Nat.eqb_spec y 1); subst; try reflexivity.
  destruct (Nat.eqb_spec x y), (Nat.eqb_spec y x); congruence.
Qed.

Lemma bcast_rev_comm a b r : bcast_rev a b = Some r -> bcast_rev b a = Some r.
Proof.
  revert b r; induction a as [|x a IH]; intros [|y b] r; simpl; trivial.
  rewrite (bcast_dim_comm y x).
  destruct (bcast_dim x y); [|discriminate].
  destruct (bcast_rev a b) as [r'|] eqn:Hr; [|discriminate].
  now rewrite (IH _ _ Hr).
Qed.

(** * Moments *)

Section Moments.
Context {F : Type} `{ScalarLaws F}.

Lemma mean_elements (self : DoublesidedMaxwell F) (batch : Shape) :
  _batch_shape_tensor self None None = Ok batch ->
  exists m,
    _mean self = Ok m /\ shape m = batch /\
    forall idx,
      get m idx =
      get (value (loc self)) (bproj idx (shape (value (loc self)))).
Proof.
  intros Hb. apply batch_shape_tensor_ok in Hb.
  unfold _mean, tf_mul, tf_ones_like, binop. cbn [shape get].
  rewrite Hb. eexists. split; [reflexivity|]. split; [reflexivity|].
  intros idx. cbn [get]. apply fmul_one_r.
Qed.

Lemma stddev_elements (self : DoublesidedMaxwell F) (batch : Shape) :
  _batch_shape_tensor self None None = Ok batch ->
  exists sd,
    _stddev self = Ok sd /\ shape sd = batch /\
    forall idx,
      get sd idx =
      fmul sqrt_3
        (get (value (scale self)) (bproj idx (shape (value (scale self))))).
Proof.
  intros Hb. apply batch_shape_tensor_ok in Hb.
  destruct (broadcast_fits _ _ Hb) as [_ Hs].
  unfold _stddev, tf_mul, tf_ones_like, constant, binop. cbn [shape get bind].
  rewrite (fits_broadcast (fits_scalar _)). cbn [shape get bind].
  assert (Hb' : broadcast_dynamic_shape (shape (value (scale self)))
                  (shape (value (loc self))) = Some batch).
  { destruct (broadcast_fits _ _ Hb) as [Hl Hs'].
    revert Hb. unfold broadcast_dynamic_shape.
    destruct (bcast_rev (rev (shape (value (loc self))))
                (rev (shape (value (scale self))))) as [r|] eqn:Hr;
      [|discriminate].
    rewrite (bcast_rev_comm _ _ Hr). trivial. }
  rewrite Hb'. eexists. split; [reflexivity|]. split; [reflexivity|].
  intros idx. cbn [get].
  now rewrite fmul_one_r, (bproj_fits _ (fits_refl _)).
Qed.
End Moments.

Lemma in_bounds_vector2 (idx : list nat) :
  in_bounds idx [2] -> idx = [0] \/ idx = [1].
Proof.
  intros Hi. inversion Hi as [|i d idx' s' Hlt Hrest]; subst.
  inversion Hrest; subst.
  destruct i as [|[|i]]; [now left|now right|lia].
Qed.

(** C4.  [_mean] returns [loc] broadcast to the batch shape and [_stddev]
    returns [sqrt 3 * scale] broadcast to the batch shape; for
    [loc = [1, 2]] and [scale = [11, 22]] the mean is [[1, 2]] and the
    standard deviation is [sqrt 3 * [11, 22]]. *)
Theorem mean_stddev_broadcast :
  (forall (F : Type) (S : Scalar F), ScalarLaws F ->
   forall (self : DoublesidedMaxwell F) (batch : Shape),
     _batch_shape_tensor self None None = Ok batch ->
     (exists m,
        _mean self = Ok m /\ shape m = batch /\
        forall idx,
          get m idx =
          get (value (loc self)) (bproj idx (shape (value (loc self))))) /\
     (exists sd,
        _stddev self = Ok sd /\ shape sd = batch /\
        forall idx,
          get sd idx =
          fmul sqrt_3
            (get (value (scale self))
                 (bproj idx (shape (value (scale self))))))) /\
  (exists m sd,
     _mean example_dist = Ok m /\
     _stddev example_dist = Ok sd /\
     tensor_eq m (vector XNaN [XFin 1; XFin 2]) /\
     tensor_eq sd (vector XNaN [fmul sqrt_3 (XFin 11);
                                fmul sqrt_3 (XFin 22)])).
Proof.
  split.
  - intros F S L self batch Hb. split.
    + now apply mean_elements.
    + now apply stddev_elements.
  - destruct (@mean_elements xreal _ _ example_dist [2] eq_refl)
      as (m & Hm & Hms & Hmg).
    destruct (@stddev_elements xreal _ _ example_dist [2] eq_refl)
      as (sd & Hsd & Hsds & Hsdg).
    exists m, sd. split; [exact Hm|]. split; [exact Hsd|].
    split; (split; [assumption|]).
    + intros idx Hidx. rewrite Hms in Hidx.
      rewrite Hmg. cbn [example_dist loc tensor_param value].
      rewrite bproj_id by exact Hidx. reflexivity.
    + intros idx Hidx. rewrite Hsds in Hidx.
      rewrite Hsdg. cbn [example_dist scale tensor_param value].
      rewrite bproj_id by exact Hidx.
      destruct (in_bounds_vector2 Hidx) as [-> | ->]; reflexivity.
Qed.

(** C4 at the example batch. *)
Lemma mean_stddev_broadcast_witness :
  _batch_shape_tensor example_dist None None = Ok [2] /\
  (exists m, _mean example_dist = Ok m /\ shape m = [2]) /\
  (exists sd, _stddev example_dist = Ok sd /\ shape sd = [2]).
Proof.
  split; [reflexivity|].
  destruct (proj1 mean_stddev_broadcast xreal _ _ example_dist [2] eq_refl)
    as [(m & Hm & Hms & _) (sd & Hsd & Hsds & _)].
  split; [exists m|exists sd]; now split.
Defined.

(** C10.  [_mean] depends on [scale] only through its shape and [_stddev]
    depends on [loc] only through its shape: two distributions with the same
    [loc] and scales of the same shape, whatever their values, have the same
    mean, and two with the same [scale] and locs of the same shape have the
    same standard deviation.  (The element type is common to both, so the
    dtypes agree.) *)
Theorem moments_noninterference
    (F : Type) (S : Scalar F) (d1 d2 : DoublesidedMaxwell F) :
  (value (loc d1) = value (loc d2) ->
   shape (value (scale d1)) = shape (value (scale d2)) ->
   _mean d1 = _mean d2) /\
  (value (scale d1) = value (scale d2) ->
   shape (value (loc d1)) = shape (value (loc d2)) ->
   _stddev d1 = _stddev d2).
Proof.
  split; intros Hv Hs.
  - unfold _mean, tf_ones_like. now rewrite Hv, Hs.
  - unfold _stddev, tf_ones_like. now rewrite Hv, Hs.
Qed.

(** C10 at the example batch and a batch whose scale is not valid. *)
Lemma moments_noninterference_witness :
  value (loc example_dist) = value (loc example_invalid_scale) /\
  shape (value (scale example_dist)) =
  shape (value (scale example_invalid_scale)) /\
  _mean example_dist = _mean example_invalid_scale.
Proof.
  split; [reflexivity|]. split; [reflexivity|].
  apply (proj1 (moments_noninterference _ example_dist
                  example_invalid_scale)); reflexivity.
Defined.

(** * Parameter validation *)

Lemma bcast_static_dim_known x y :
  bcast_static_dim (Some x) (Some y) = option_map (@Some nat) (bcast_dim x y).
Proof.
  unfold bcast_static_dim, bcast_dim.
  destruct (x =? 1); [reflexivity|].
  destruct (y =? 1); [reflexivity|].
  now destruct (x =? y).
Qed.

Lemma bcast_static_rev_known a b :
  bcast_static_rev (map (@Some nat) a) (map (@Some nat) b) =
  option_map (map (@Some nat)) (bcast_rev a b).
Proof.
  revert b; induction a as [|x a IH]; intros [|y b]; try reflexivity.
  cbn [map bcast_static_rev bcast_rev]. rewrite bcast_static_dim_known, IH.
  destruct (bcast_dim x y); [|reflexivity].
  now destruct (bcast_rev a b).
Qed.

(** Static broadcasting fails only on a pair of aligned dimensions that are
    both known, both different from 1 and different from each other. *)
Lemma bcast_static_dim_none x y :
  bcast_static_dim x y = None ->
  exists dx dy, x = Some dx /\ y = Some dy /\ dx <> 1 /\ dy <> 1 /\ dx <> dy.
Proof.
  destruct x as [dx|], y as [dy|]; simpl.
  - destruct (Nat.eqb_spec dx 1); [discriminate|].
    destruct (Nat.eqb_spec dy 1); [discriminate|].
    destruct (Nat.eqb_spec dx dy); [discriminate|].
    intros _. now exists dx, dy.
  - now destruct (1 <? dx).
  - now destruct (1 <? dy).
  - discriminate.
Qed.

Lemma bcast_static_rev_none a b :
  bcast_static_rev a b = None ->
  exists i dx dy,
    nth_error a i = Some (Some dx) /\ nth_error b i = Some (Some dy) /\
    dx <> 1 /\ dy <> 1 /\ dx <> dy.
Proof.
  revert b; induction a as [|x a IH]; intros [|y b]; try discriminate.
  simpl. destruct (bcast_static_dim x y) as [d|] eqn:Hd.
  - destruct (bcast_static_rev a b) eqn:Hr; [discriminate|].
    intros _. destruct (IH _ Hr) as (i & dx & dy & Hi).
    now exists (S i), dx, dy.
  - intros _.
    destruct (bcast_static_dim_none _ _ Hd) as (dx & dy & -> & -> & Hc).
    now exists 0, dx, dy.
Qed.

(** A pair of aligned known dimensions that conflict makes static
    broadcasting fail. *)
Lemma bcast_static_rev_conflict a b i dx dy :
  nth_error a i = Some (Some dx) -> nth_error b i = Some (Some dy) ->
  dx <> 1 -> dy <> 1 -> dx <> dy ->
  bcast_static_rev a b = None.
Proof.
  revert a b; induction i as [|i IH]; intros [|x a] [|y b]; try discriminate.
  - simpl. intros [= ->] [= ->] Hx Hy Hxy. unfold bcast_static_dim.
    destruct (Nat.eqb_spec dx 1); [contradiction|].
    destruct (Nat.eqb_spec dy 1); [contradiction|].
    destruct (Nat.eqb_spec dx dy); [contradiction|reflexivity].
  - simpl. intros Ha Hb Hx Hy Hxy.
    rewrite (IH a b Ha Hb Hx Hy Hxy).
    now destruct (bcast_static_dim x y).
Qed.

(** [indices] lists the positions of a shape, all of them. *)
Lemma indices_in_bounds (s : Shape) (idx : list nat) :
  In idx (indices s) <-> in_bounds idx s.
Proof.
  revert idx; induction s as [|d s IH]; intros idx; simpl.
  - split.
    + intros [<-|[]]. constructor.
    + intros Hi. inversion Hi. now left.
  - rewrite in_flat_map. split.
    + intros (i & Hi & Hin). apply in_seq in Hi.
      apply in_map_iff in Hin. destruct Hin as (idx' & <- & Hidx').
      constructor; [lia|now apply IH].
    + intros Hi. inversion Hi as [|i d' idx' s' Hlt Hrest]; subst.
      exists i. split; [apply in_seq; lia|].
      apply in_map. now apply IH.
Qed.

Section Validation.
Context {F : Type} `{Scalar F}.

Lemma batch_shape_raises (self : DoublesidedMaxwell F) (e : exn) :
  _batch_shape self = Raise e ->
  e = ValueError "Incompatible shapes for broadcasting" /\
  exists dl ds,
    static_shape (loc self) = Some dl /\ static_shape (scale self) = Some ds /\
    bcast_static_rev (rev dl) (rev ds) = None.
Proof.
  unfold _batch_shape, broadcast_static_shape.
  destruct (static_shape (loc self)) as [dl|]; [|discriminate].
  destruct (static_shape (scale self)) as [ds|]; [|discriminate].
  destruct (bcast_static_rev (rev dl) (rev ds)) eqn:Hr; [discriminate|].
  intros [= <-]. split; [reflexivity|]. now exists dl, ds.
Qed.

(** The positivity check returns when every element is positive and raises
    when one is not. *)
Lemma assert_positive_ok (x : TensorLike F) (message : string) :
  (forall idx, in_bounds idx (shape (value x)) ->
     fpositive (get (value x) idx) = true) ->
  assert_positive x message = Ok (checked_positive x message).
Proof.
  intros Hall. unfold assert_positive.
  replace (forallb fpositive (elements (value x))) with true; [reflexivity|].
  symmetry. apply forallb_forall. intros v Hv.
  apply in_map_iff in Hv. destruct Hv as (idx & <- & Hidx).
  apply Hall. now apply indices_in_bounds.
Qed.

Lemma assert_positive_raise (x : TensorLike F) (message : string)
    (idx : list nat) :
  in_bounds idx (shape (value x)) ->
  fpositive (get (value x) idx) = false ->
  assert_positive x message = Raise (InvalidArgumentError message).
Proof.
  intros Hidx Hneg. unfold assert_positive.
  destruct (forallb fpositive (elements (value x))) eqn:Hall; [|reflexivity].
  rewrite forallb_forall in Hall.
  rewrite Hall in Hneg; [discriminate|].
  apply in_map. now apply indices_in_bounds.
Qed.

Lemma assert_positive_cases (x : TensorLike F) (message : string) :
  (assert_positive x message = Ok (checked_positive x message) /\
   forall idx, in_bounds idx (shape (value x)) ->
     fpositive (get (value x) idx) = true) \/
  (assert_positive x message = Raise (InvalidArgumentError message) /\
   exists idx, in_bounds idx (shape (value x)) /\
               fpositive (get (value x) idx) = false).
Proof.
  unfold assert_positive.
  destruct (forallb fpositive (elements (value x))) eqn:Hall.
  - left. split; [reflexivity|]. intros idx Hidx.
    rewrite forallb_forall in Hall. apply Hall.
    apply in_map. now apply indices_in_bounds.
  - right. split; [reflexivity|].
    assert (Hex : existsb (fun v => negb (fpositive v))
                          (elements (value x)) = true).
    { clear -Hall. induction (elements (value x)) as [|v l IH];
        [discriminate|].
      simpl in *. destruct (fpositive v); simpl in *; [now apply IH|].
      reflexivity. }
    apply existsb_exists in Hex. destruct Hex as (v & Hv & Hneg).
    apply in_map_iff in Hv. destruct Hv as (idx & <- & Hidx).
    exists idx. split; [now apply indices_in_bounds|].
    now destruct (fpositive (get (value x) idx)).
Qed.

(** The construction-time call of the hook when the static shape check
    passes, and when it fails; the call on a later access. *)
Lemma control_dependencies_init_ok (self : DoublesidedMaxwell F) b :
  _batch_shape self = Ok b ->
  _parameter_control_dependencies self true =
  if negb (validate_args self) then Ok []
  else if is_ref (scale self) then Ok []
  else (a <- assert_positive (scale self)
                             "Argument `scale` must be positive." ;;
        Ok [a]).
Proof.
  intros Hb. unfold _parameter_control_dependencies. rewrite Hb.
  cbn [bind]. destruct (negb (validate_args self)); [reflexivity|].
  destruct (is_ref (scale self)); cbn; [reflexivity|].
  now destruct (assert_positive _ _).
Qed.

Lemma control_dependencies_access (self : DoublesidedMaxwell F) :
  _parameter_control_dependencies self false =
  if negb (validate_args self) then Ok []
  else if is_ref (scale self)
  then (a <- assert_positive (scale self)
                             "Argument `scale` must be positive." ;;
        Ok [a])
  else Ok [].
Proof.
  unfold _parameter_control_dependencies. cbn [bind].
  destruct (negb (validate_args self)); [reflexivity|].
  destruct (is_ref (scale self)); cbn; [|reflexivity].
  now destruct (assert_positive _ _).
Qed.

Lemma control_dependencies_init_raise (self : DoublesidedMaxwell F) e :
  _batch_shape self = Raise e ->
  _parameter_control_dependencies self true =
  Raise (ValueError (compatible_shapes_message (static_shape (loc self))
                                               (static_shape (scale self)))).
Proof.
  intros He. destruct (batch_shape_raises _ He) as [-> _].
  unfold _parameter_control_dependencies. now rewrite He.
Qed.

(** The positivity check never raises a [ValueError]. *)
Lemma control_dependencies_init_no_shape_error
    (self : DoublesidedMaxwell F) b msg :
  _batch_shape self = Ok b ->
  _parameter_control_dependencies self true <> Raise (ValueError msg).
Proof.
  intros Hb. rewrite (control_dependencies_init_ok _ Hb).
  destruct (negb (validate_args self)); [discriminate|].
  destruct (is_ref (scale self)); [discriminate|].
  destruct (assert_positive_cases (scale self)
              "Argument `scale` must be positive.") as [[-> _]|[-> _]];
    discriminate.
Qed.

Lemma batch_shape_conflict (self : DoublesidedMaxwell F) :
  (exists e, _batch_shape self = Raise e) <->
  known_conflict (static_shape (loc self)) (static_shape (scale self)).
Proof.
  split.
  - intros [e He].
    destruct (batch_shape_raises _ He) as (_ & dl & ds & Hl & Hs & Hnone).
    destruct (bcast_static_rev_none _ _ Hnone) as (i & dx & dy & Hi).
    now exists dl, ds, i, dx, dy.
  - intros (dl & ds & i & dx & dy & Hl & Hs & Hdl & Hds & Hx & Hy & Hxy).
    unfold _batch_shape, broadcast_static_shape. rewrite Hl, Hs.
    rewrite (@bcast_static_rev_conflict _ _ _ _ _ Hdl Hds Hx Hy Hxy).
    now eexists.
Qed.

(** Without [validate_args] the hook produces no assertion; the check of the
    static shapes at construction is made all the same. *)
Lemma control_dependencies_unvalidated (self : DoublesidedMaxwell F) :
  validate_args self = false ->
  _parameter_control_dependencies self false = Ok [] /\
  (forall b, _batch_shape self = Ok b ->
     _parameter_control_dependencies self true = Ok []) /\
  (forall e, _batch_shape self = Raise e ->
     _parameter_control_dependencies self true =
     Raise (ValueError
              (compatible_shapes_message (static_shape (loc self))
                                         (static_shape (scale self))))).
Proof.
  intros Hv. split; [|split].
  - rewrite control_dependencies_access. now rewrite Hv.
  - intros b Hb. rewrite (control_dependencies_init_ok _ Hb). now rewrite Hv.
  - intros e He. now apply control_dependencies_init_raise with e.
Qed.

(** C6.  With [validate_args] enabled, the construction-time call (its
    check of the static shapes passing) makes the positivity check of
    [scale] exactly when [scale] is not a reference, and the call on every
    later access makes it exactly when [scale] is a reference: the check is
    made in one of the two and never in both.  Where it is made it returns
    the assertion when every element of [scale] is positive and raises
    [InvalidArgumentError] when one is not; where it is not made the call
    returns no assertion whatever the elements are. *)
Theorem scale_positivity_assertion (self : DoublesidedMaxwell F) :
  validate_args self = true ->
  let message := "Argument `scale` must be positive."%string in
  let check := a <- assert_positive (scale self) message ;; Ok [a] in
  (forall b, _batch_shape self = Ok b ->
     _parameter_control_dependencies self true =
     if is_ref (scale self) then Ok [] else check) /\
  _parameter_control_dependencies self false =
  (if is_ref (scale self) then check else Ok []) /\
  ((forall idx, in_bounds idx (shape (value (scale self))) ->
      fpositive (get (value (scale self)) idx) = true) ->
   check = Ok [checked_positive (scale self) message]) /\
  (forall idx, in_bounds idx (shape (value (scale self))) ->
     fpositive (get (value (scale self)) idx) = false ->
     check = Raise (InvalidArgumentError message)).
Proof.
  intros Hv message check. split; [|split; [|split]].
  - intros b Hb. rewrite (control_dependencies_init_ok _ Hb). now rewrite Hv.
  - rewrite control_dependencies_access. now rewrite Hv.
  - intros Hall. unfold check. now rewrite (assert_positive_ok _ _ Hall).
  - intros idx Hidx Hneg. unfold check.
    now rewrite (assert_positive_raise _ _ Hidx Hneg).
Qed.

(** C7 (amended).  The construction-time call raises the [ValueError] about
    the shapes exactly when both ranks are known and, counting from the last
    axis, some pair of aligned dimensions is known on both sides, neither is
    1 and they differ; its message contains both shapes.  So fully known
    shapes that do not broadcast fail construction, and so do partly known
    shapes with such a pair; when a rank is not known nothing is compared
    and no shape error is raised. *)
Theorem construction_shape_check (self : DoublesidedMaxwell F) :
  let message :=
    compatible_shapes_message (static_shape (loc self))
                              (static_shape (scale self)) in
  (_parameter_control_dependencies self true = Raise (ValueError message) <->
   known_conflict (static_shape (loc self)) (static_shape (scale self))) /\
  (forall msg,
     _parameter_control_dependencies self true = Raise (ValueError msg) ->
     msg = message) /\
  (forall ls ss : Shape,
     static_shape (loc self) = fully_known ls ->
     static_shape (scale self) = fully_known ss ->
     broadcast_dynamic_shape ls ss = None ->
     _parameter_control_dependencies self true =
     Raise (ValueError
              ("Arguments `loc` and `scale` must have compatible shapes; "
               ++ "loc.shape=" ++ TensorShape_str (fully_known ls)
               ++ ", scale.shape=" ++ TensorShape_str (fully_known ss)
               ++ "."))) /\
  (static_shape (loc self) = None \/ static_shape (scale self) = None ->
   _batch_shape self = Ok None /\
   forall msg,
     _parameter_control_dependencies self true <> Raise (ValueError msg)).
Proof.
  intros message. split; [|split; [|split]].
  - rewrite <- batch_shape_conflict. split.
    + intros He. destruct (_batch_shape self) as [b|e] eqn:Hb;
        [|now exists e].
      now apply (@control_dependencies_init_no_shape_error self b message Hb)
        in He.
    + intros [e He]. now apply control_dependencies_init_raise with e.
  - intros msg He. destruct (_batch_shape self) as [b|e] eqn:Hb.
    + now apply (@control_dependencies_init_no_shape_error self b msg Hb)
        in He.
    + rewrite (control_dependencies_init_raise _ Hb) in He.
      now injection He as <-.
  - intros ls ss Hl Hs Hinc.
    assert (Hr : _batch_shape self =
                 Raise (ValueError "Incompatible shapes for broadcasting")).
    { unfold _batch_shape, broadcast_static_shape, fully_known in *.
      rewrite Hl, Hs, <- !map_rev, bcast_static_rev_known.
      unfold broadcast_dynamic_shape in Hinc.
      now destruct (bcast_rev (rev ls) (rev ss)). }
    rewrite (control_dependencies_init_raise _ Hr). unfold message.
    rewrite Hl, Hs. reflexivity.
  - intros Hunk.
    assert (Hb : _batch_shape self = Ok None).
    { unfold _batch_shape, broadcast_static_shape.
      destruct Hunk as [-> | ->]; [reflexivity|].
      now destruct (static_shape (loc self)). }
    split; [exact Hb|].
    intros msg.
    exact (@control_dependencies_init_no_shape_error self None msg Hb).
Qed.
End Validation.

(** The comparison with zero on the extended reals. *)
Lemma xpositiveb_true (x : xreal) : xpositive x -> fpositive x = true.
Proof.
  destruct x as [| | |r]; simpl; try contradiction; [reflexivity|].
  intros Hr. now destruct (Rlt_dec 0 r).
Qed.

Lemma xpositiveb_false (x : xreal) : ~ xpositive x -> fpositive x = false.
Proof.
  destruct x as [| | |r]; simpl; try reflexivity; [intros Hn; now elim Hn|].
  intros Hr. now destruct (Rlt_dec 0 r).
Qed.

(** A negative scale makes the density not-a-number, whatever [x] and
    [loc] are. *)
Lemma log_density_negative_scale (x_i mu : xreal) (s : R) :
  (s < 0)%R -> log_density x_i mu (XFin s) = XNaN.
Proof.
  intros Hs. unfold log_density.
  cbn [fdiv fsub fmul fadd flog neg_half half_log_2pi xreal_Scalar].
  replace (xlog (XFin s)) with XNaN by (simpl; now rewrite (Rsign_neg Hs)).
  generalize (xadd (xmul (XFin (- (1 / 2)))
                         (xmul (xdiv (xsub x_i mu) (XFin s))
                               (xdiv (xsub x_i mu) (XFin s))))
                   (xlog (xmul (xdiv (xsub x_i mu) (XFin s))
                               (xdiv (xsub x_i mu) (XFin s))))).
  now intros [].
Qed.

(** C5 (amended).  With [validate_args] disabled the hook never produces an
    assertion: the call on a later access returns none, and so does the call
    at construction when the static shapes of [loc] and [scale] are
    compatible, whatever the values of [scale]; a negative scale is not
    rejected and [_log_prob] returns not-a-number for it.  The check of the
    static shapes at construction does not depend on [validate_args]: it is
    made, and fails construction, also when the flag is disabled. *)
Theorem no_assertions_without_validate_args :
  (forall (F : Type) (S : Scalar F) (self : DoublesidedMaxwell F),
     validate_args self = false ->
     _parameter_control_dependencies self false = Ok [] /\
     (forall b, _batch_shape self = Ok b ->
        _parameter_control_dependencies self true = Ok []) /\
     (forall e, _batch_shape self = Raise e ->
        _parameter_control_dependencies self true =
        Raise (ValueError
                 (compatible_shapes_message (static_shape (loc self))
                                            (static_shape (scale self)))))) /\
  (forall (self : DoublesidedMaxwell xreal) (x : Tensor xreal)
          (batch out : Shape),
     _batch_shape_tensor self None None = Ok batch ->
     broadcast_dynamic_shape (shape x) batch = Some out ->
     exists t,
       _log_prob self x = Ok t /\
       forall idx (s : R),
         get (value (scale self)) (bproj idx (shape (value (scale self))))
         = XFin s ->
         (s < 0)%R ->
         get t idx = XNaN).
Proof.
  split.
  - intros F S self. apply control_dependencies_unvalidated.
  - intros self x batch out Hb Hout. apply batch_shape_tensor_ok in Hb.
    destruct (broadcast_assoc _ _ _ Hb Hout) as (m & Hm & Hms).
    destruct (log_prob_elements self x Hm Hms) as (t & Ht & _ & Hget).
    exists t. split; [exact Ht|].
    intros idx s Hscale Hs. rewrite Hget, Hscale.
    now apply log_density_negative_scale.
Qed.

(** C5, counterexample: with [validate_args] disabled, [loc] of static shape
    [(2,)] and [scale] of static shape [(3,)], the construction-time call
    checks the shapes and raises. *)
Lemma shape_check_without_validate_args :
  validate_args example_incompatible = false /\
  _parameter_control_dependencies example_incompatible true =
  Raise (ValueError
           ("Arguments `loc` and `scale` must have compatible shapes; "
            ++ "loc.shape=(2,), scale.shape=(3,).")).
Proof. split; reflexivity. Qed.

(** C5 (amended) at the example batch with a scale that is not valid:
    nothing is asserted, and the density at [loc] is not-a-number where the
    scale is negative. *)
Lemma no_assertions_without_validate_args_witness :
  validate_args example_invalid_scale = false /\
  _parameter_control_dependencies example_invalid_scale false = Ok [] /\
  _parameter_control_dependencies example_invalid_scale true = Ok [] /\
  exists t,
    _log_prob example_invalid_scale example_loc = Ok t /\
    get t [0] = XNaN.
Proof.
  split; [reflexivity|].
  destruct (proj1 no_assertions_without_validate_args _ _
              example_invalid_scale eq_refl) as (Haccess & Hinit & _).
  split; [exact Haccess|].
  split; [apply (Hinit (fully_known [2])); reflexivity|].
  destruct (proj2 no_assertions_without_validate_args
              example_invalid_scale example_loc [2] [2] eq_refl eq_refl)
    as (t & Ht & Hnan).
  exists t. split; [exact Ht|].
  apply (Hnan [0] (-1)%R); [reflexivity|lra].
Defined.

(** C7, counterexample: the static shapes [(None, 3)] and [(None, 4)] are
    not fully known, and the construction-time call compares them and
    raises. *)
Lemma partly_known_shapes_checked :
  static_shape (loc example_partly_conflicting) = Some [None; Some 3] /\
  static_shape (scale example_partly_conflicting) = Some [None; Some 4] /\
  _parameter_control_dependencies example_partly_conflicting true =
  Raise (ValueError
           ("Arguments `loc` and `scale` must have compatible shapes; "
            ++ "loc.shape=(None, 3), scale.shape=(None, 4).")).
Proof. repeat split. Qed.

Lemma example_scale_positive :
  forall idx, in_bounds idx (shape (value (scale example_validating))) ->
    fpositive (get (value (scale example_validating)) idx) = true.
Proof.
  intros idx Hidx. apply xpositiveb_true.
  destruct (in_bounds_vector2 Hidx) as [-> | ->]; simpl; lra.
Qed.

(** C6 at the example batch with validation: the scale is a tensor and
    positive, so it is checked at construction, where the check holds, and
    not afterwards; with the scale [[-1, nan]] the construction-time check
    raises, and on a later access nothing is checked. *)
Lemma scale_positivity_assertion_witness :
  validate_args example_validating = true /\
  _parameter_control_dependencies example_validating true =
  Ok [checked_positive (scale example_validating)
                       "Argument `scale` must be positive."] /\
  _parameter_control_dependencies example_validating false = Ok [] /\
  _parameter_control_dependencies example_invalid_validating true =
  Raise (InvalidArgumentError "Argument `scale` must be positive.") /\
  _parameter_control_dependencies example_invalid_validating false = Ok [].
Proof.
  split; [reflexivity|].
  destruct (scale_positivity_assertion example_validating eq_refl)
    as (Hinit & Haccess & Hok & _).
  destruct (scale_positivity_assertion example_invalid_validating eq_refl)
    as (Hinit' & Haccess' & _ & Hraise).
  split; [|split; [exact Haccess|split; [|exact Haccess']]].
  - rewrite (Hinit (fully_known [2]) eq_refl).
    exact (Hok example_scale_positive).
  - rewrite (Hinit' (fully_known [2]) eq_refl).
    apply (Hraise [0]); [repeat constructor|].
    apply xpositiveb_false. simpl. lra.
Defined.

(** C7 (amended) at [loc] of static shape [(2,)] and [scale] of static shape
    [(3,)]. *)
Lemma construction_shape_check_witness :
  static_shape (loc example_incompatible) = fully_known [2] /\
  static_shape (scale example_incompatible) = fully_known [3] /\
  broadcast_dynamic_shape [2] [3] = None /\
  _parameter_control_dependencies example_incompatible true =
  Raise (ValueError
           ("Arguments `loc` and `scale` must have compatible shapes; "
            ++ "loc.shape=(2,), scale.shape=(3,).")).
Proof.
  split; [reflexivity|]. split; [reflexivity|]. split; [reflexivity|].
  destruct (construction_shape_check example_incompatible)
    as (_ & _ & Hknown & _).
  apply (Hknown [2] [3]); reflexivity.
Defined.

(** * The density at and around the location *)

Lemma xdiv_zero_positive (sigma : xreal) :
  xpositive sigma -> xdiv (XFin 0) sigma = XFin 0.
Proof.
  destruct sigma as [| | |s]; simpl; try contradiction; [reflexivity|].
  intros Hs. rewrite (Rsign_pos Hs). f_equal. field. lra.
Qed.

Lemma xlog_positive (sigma : xreal) :
  xpositive sigma -> xlog sigma = XPosInf \/ exists r, xlog sigma = XFin r.
Proof.
  destruct sigma as [| | |s]; simpl; try contradiction; [now left|].
  intros Hs. rewrite (Rsign_pos Hs). right. now exists (ln s).
Qed.

(** At [x = loc] the standardised value is 0, its logarithm is [-inf], and
    the normalisation, which is finite or [+inf], does not change that. *)
Lemma log_density_at_loc (l : R) (sigma : xreal) :
  xpositive sigma -> log_density (XFin l) (XFin l) sigma = XNegInf.
Proof.
  intros Hs. unfold log_density. cbn [fdiv fsub fmul fadd flog neg_half
    half_log_2pi xreal_Scalar].
  replace (xsub (XFin l) (XFin l)) with (XFin 0)
    by (simpl; f_equal; ring).
  rewrite (xdiv_zero_positive _ Hs).
  replace (xmul (XFin 0) (XFin 0)) with (XFin 0) by (simpl; f_equal; ring).
  simpl xlog at 1. rewrite Rsign_zero.
  destruct (xlog_positive _ Hs) as [-> | [r ->]]; reflexivity.
Qed.

(** C8.  For every finite [loc] and every positive [scale], [_log_prob]
    evaluated at [loc] is [-inf] at every position of the batch; it is a
    returned value, not an exception. *)
Theorem log_prob_at_loc (self : DoublesidedMaxwell xreal) (batch : Shape) :
  _batch_shape_tensor self None None = Ok batch ->
  all_elements xfinite (value (loc self)) ->
  all_elements xpositive (value (scale self)) ->
  exists t,
    _log_prob self (value (loc self)) = Ok t /\ shape t = batch /\
    forall idx, in_bounds idx batch -> get t idx = XNegInf.
Proof.
  intros Hb Hloc Hscale. apply batch_shape_tensor_ok in Hb.
  destruct (broadcast_fits _ _ Hb) as [Hl Hs].
  destruct (log_prob_elements self (value (loc self))
              (fits_broadcast (fits_refl _)) Hb) as (t & Ht & Hsh & Hget).
  exists t. split; [exact Ht|]. split; [exact Hsh|].
  intros idx Hidx. rewrite Hget.
  pose proof (Hloc _ (bproj_in_bounds Hl Hidx)) as Hfin.
  pose proof (Hscale _ (bproj_in_bounds Hs Hidx)) as Hpos.
  destruct (get (value (loc self)) _) as [| | |l]; try contradiction.
  now apply log_density_at_loc.
Qed.

(** C8 at the example batch. *)
Lemma log_prob_at_loc_witness :
  _batch_shape_tensor example_dist None None = Ok [2] /\
  all_elements xfinite (value (loc example_dist)) /\
  all_elements xpositive (value (scale example_dist)) /\
  exists t,
    _log_prob example_dist (value (loc example_dist)) = Ok t /\
    shape t = [2] /\
    forall idx, in_bounds idx [2] -> get t idx = XNegInf.
Proof.
  assert (Hloc : all_elements xfinite (value (loc example_dist))).
  { intros idx Hidx.
    destruct (in_bounds_vector2 Hidx) as [-> | ->]; exact I. }
  assert (Hscale : all_elements xpositive (value (scale example_dist))).
  { intros idx Hidx.
    destruct (in_bounds_vector2 Hidx) as [-> | ->]; simpl; lra. }
  split; [reflexivity|]. split; [exact Hloc|]. split; [exact Hscale|].
  exact (log_prob_at_loc example_dist eq_refl Hloc Hscale).
Defined.

Lemma Rsign_nonzero (b : R) : Rsign b <> Zer -> b <> 0%R.
Proof. intros Hb ->. now rewrite Rsign_zero in Hb. Qed.

Lemma xdiv_xneg_l (a : R) (s : xreal) :
  xdiv (XFin (- a)) s = xneg (xdiv (XFin a) s).
Proof.
  destruct s as [| | |b]; simpl; try reflexivity;
    try (f_equal; ring).
  destruct (Rsign b) eqn:Hb; simpl.
  - f_equal. field. apply Rsign_nonzero. congruence.
  - now rewrite Rsign_opp, xinf_neg.
  - f_equal. field. apply Rsign_nonzero. congruence.
Qed.

Lemma xmul_xneg_xneg (z : xreal) : xmul (xneg z) (xneg z) = xmul z z.
Proof.
  destruct z as [| | |r]; simpl; try reflexivity. f_equal. ring.
Qed.

(** The square of the standardised value is the same on both sides of the
    location. *)
Lemma square_z_symmetric (l d : R) (sigma : xreal) :
  let zp := xdiv (xsub (xadd (XFin l) (XFin d)) (XFin l)) sigma in
  let zm := xdiv (xsub (xsub (XFin l) (XFin d)) (XFin l)) sigma in
  xmul zp zp = xmul zm zm.
Proof.
  cbn zeta.
  replace (xsub (xsub (XFin l) (XFin d)) (XFin l))
    with (XFin (- (l + d + - l))) by (simpl; f_equal; ring).
  replace (xsub (xadd (XFin l) (XFin d)) (XFin l))
    with (XFin (l + d + - l)) by reflexivity.
  now rewrite xdiv_xneg_l, xmul_xneg_xneg.
Qed.

Lemma log_density_symmetric (l d : R) (sigma : xreal) :
  log_density (xadd (XFin l) (XFin d)) (XFin l) sigma =
  log_density (xsub (XFin l) (XFin d)) (XFin l) sigma.
Proof.
  unfold log_density. cbn [fdiv fsub fmul fadd flog xreal_Scalar].
  now rewrite (square_z_symmetric l d sigma).
Qed.

Lemma result_eq_exp {F : Type} `{Scalar F} (a b : result (Tensor F)) :
  result_eq a b ->
  result_eq (t <- a ;; Ok (tf_exp t)) (t <- b ;; Ok (tf_exp t)).
Proof.
  destruct a as [ta|ea], b as [tb|eb]; simpl; trivial.
  intros [Hs Hg]. split; [exact Hs|].
  intros idx Hidx. cbn [tf_exp unop get]. f_equal. now apply Hg.
Qed.

Lemma xdiv_xneg_l_all (a s : xreal) : xdiv (xneg a) s = xneg (xdiv a s).
Proof.
  destruct a as [| | |a]; [reflexivity| | |apply xdiv_xneg_l];
    destruct s as [| | |b]; simpl; try reflexivity;
    destruct (Rsign b); reflexivity.
Qed.

#[export] Instance xreal_SignLaws : SignLaws xreal.
Proof.
  constructor.
  - exact xdiv_xneg_l_all.
  - exact xmul_xneg_xneg.
Qed.

(** Rounding to nearest is symmetric in the sign, so the two identities hold
    in single precision as well. *)
Lemma binary_round_aux_opp prec emax s m e l :
  SpecFloat.SFopp (SpecFloat.binary_round_aux prec emax s m e l) =
  SpecFloat.binary_round_aux prec emax (negb s) m e l.
Proof.
  unfold SpecFloat.binary_round_aux.
  destruct (SpecFloat.shr_fexp prec emax m e l) as [mrs' e'].
  destruct (SpecFloat.shr_fexp prec emax _ e' SpecFloat.loc_Exact)
    as [mrs'' e''].
  destruct (SpecFloat.shr_m mrs''); try reflexivity.
  destruct (Z.leb e'' (emax - prec)); reflexivity.
Qed.

Lemma SFdiv_opp_l prec emax a s :
  SpecFloat.SFdiv prec emax (SpecFloat.SFopp a) s =
  SpecFloat.SFopp (SpecFloat.SFdiv prec emax a s).
Proof.
  destruct a as [sa|sa| |sa ma ea], s as [ss|ss| |ss ms es];
    cbn [SpecFloat.SFdiv SpecFloat.SFopp]; rewrite ?negb_xorb_l;
    try reflexivity.
  destruct (SpecFloat.SFdiv_core_binary prec emax (Z.pos ma) ea (Z.pos ms) es)
    as [[mz ez] lz].
  now rewrite binary_round_aux_opp, negb_xorb_l.
Qed.

Lemma SFmul_opp_opp prec emax z :
  SpecFloat.SFmul prec emax (SpecFloat.SFopp z) (SpecFloat.SFopp z) =
  SpecFloat.SFmul prec emax z z.
Proof.
  destruct z as [s|s| |s m e]; cbn [SpecFloat.SFmul SpecFloat.SFopp];
    try reflexivity; now destruct s.
Qed.

#[export] Instance float32_SignLaws : SignLaws Float32.float32.
Proof.
  constructor.
  - exact (SFdiv_opp_l Float32.prec Float32.emax).
  - exact (SFmul_opp_opp Float32.prec Float32.emax).
Qed.

(** The density on the extended reals at [loc + d] and at [loc - d], for
    finite [loc] and [d] and every [scale]. *)
Lemma log_prob_symmetric_reals
    (self : DoublesidedMaxwell xreal) (d x_plus x_minus : Tensor xreal) :
  all_elements xfinite (value (loc self)) ->
  all_elements xfinite d ->
  tf_add (value (loc self)) d = Ok x_plus ->
  tf_sub (value (loc self)) d = Ok x_minus ->
  result_eq (_log_prob self x_plus) (_log_prob self x_minus) /\
  result_eq (prob self x_plus) (prob self x_minus).
Proof.
  intros Hloc Hd Hp Hm.
  assert (Hlog : result_eq (_log_prob self x_plus) (_log_prob self x_minus)).
  2:{ split; [exact Hlog|]. unfold prob. now apply result_eq_exp. }
  unfold tf_add, tf_sub, binop in Hp, Hm.
  destruct (broadcast_dynamic_shape (shape (value (loc self))) (shape d))
    as [p|] eqn:Hpd; [|discriminate].
  injection Hp as <-. injection Hm as <-.
  destruct (broadcast_fits _ _ Hpd) as [Hlp Hdp].
  set (xp := mkTensor p _). set (xm := mkTensor p _).
  destruct (broadcast_dynamic_shape p (shape (value (loc self))))
    as [m|] eqn:Hm.
  2:{ rewrite (log_prob_raises_loc self xp Hm).
      rewrite (log_prob_raises_loc self xm Hm). reflexivity. }
  destruct (broadcast_dynamic_shape m (shape (value (scale self))))
    as [out|] eqn:Hout.
  2:{ rewrite (log_prob_raises_scale self xp Hm Hout).
      rewrite (log_prob_raises_scale self xm Hm Hout). reflexivity. }
  destruct (log_prob_elements self xp Hm Hout) as (tp & -> & Hsp & Hgp).
  destruct (log_prob_elements self xm Hm Hout) as (tm & -> & Hsm & Hgm).
  destruct (broadcast_fits _ _ Hm) as [Hpm Hlm].
  destruct (broadcast_fits _ _ Hout) as [Hmo _].
  split; [congruence|].
  intros idx Hidx. rewrite Hsp in Hidx.
  rewrite Hgp, Hgm. subst xp xm. cbn [shape get].
  rewrite !(bproj_fits _ Hlp).
  pose proof (fits_trans Hpm Hmo) as Hpo.
  pose proof (Hloc _ (bproj_in_bounds (fits_trans Hlm Hmo) Hidx)) as Hfl.
  pose proof (Hd _ (bproj_in_bounds Hdp (bproj_in_bounds Hpo Hidx))) as Hfd.
  destruct (get (value (loc self)) _) as [| | |l]; try contradiction.
  destruct (get d _) as [| | |dv]; try contradiction.
  apply log_density_symmetric.
Qed.

Section Symmetry.
Context {F : Type} `{SignLaws F}.

(** The density reads [x] only through the square of [(x - loc) / scale], so
    two arguments whose differences from [loc] are negations of each other
    have the same density. *)
Lemma log_density_negated (x_plus x_minus mu sigma : F) :
  fsub x_plus mu = fneg (fsub x_minus mu) ->
  log_density x_plus mu sigma = log_density x_minus mu sigma.
Proof.
  intros Hc. unfold log_density. cbn zeta.
  now rewrite Hc, fdiv_fneg_l, fmul_fneg_fneg.
Qed.

Lemma log_prob_symmetric_centred
    (self : DoublesidedMaxwell F) (x_plus x_minus : Tensor F) :
  shape x_plus = shape x_minus ->
  (forall t idx,
     _log_prob self x_plus = Ok t -> in_bounds idx (shape t) ->
     let mu :=
       get (value (loc self)) (bproj idx (shape (value (loc self)))) in
     fsub (get x_plus (bproj idx (shape x_plus))) mu =
     fneg (fsub (get x_minus (bproj idx (shape x_minus))) mu)) ->
  result_eq (_log_prob self x_plus) (_log_prob self x_minus) /\
  result_eq (prob self x_plus) (prob self x_minus).
Proof.
  intros Hshape Hneg.
  assert (Hlog : result_eq (_log_prob self x_plus) (_log_prob self x_minus)).
  2:{ split; [exact Hlog|]. unfold prob. now apply result_eq_exp. }
  destruct (broadcast_dynamic_shape (shape x_plus)
              (shape (value (loc self)))) as [m|] eqn:Hm.
  2:{ rewrite (log_prob_raises_loc self x_plus Hm).
      rewrite Hshape in Hm.
      rewrite (log_prob_raises_loc self x_minus Hm). reflexivity. }
  destruct (broadcast_dynamic_shape m (shape (value (scale self))))
    as [out|] eqn:Hout.
  2:{ rewrite (log_prob_raises_scale self x_plus Hm Hout).
      rewrite Hshape in Hm.
      rewrite (log_prob_raises_scale self x_minus Hm Hout). reflexivity. }
  destruct (log_prob_elements self x_plus Hm Hout) as (tp & Htp & Hsp & Hgp).
  assert (Hm' := Hm). rewrite Hshape in Hm'.
  destruct (log_prob_elements self x_minus Hm' Hout)
    as (tm & Htm & Hsm & Hgm).
  rewrite Htp, Htm. split; [congruence|].
  intros idx Hidx. rewrite Hgp, Hgm.
  apply log_density_negated. exact (Hneg tp idx Htp Hidx).
Qed.
End Symmetry.

(** C9 (amended).  The density is symmetric about the location in the
    difference from it: in every arithmetic in which negation commutes with
    division and cancels in a square (the extended reals and single
    precision are such), two arguments of the same shape whose differences
    from [loc], as the arithmetic computes them, are negations of each other
    have the same [_log_prob] and the same [prob] (both return, with equal
    shapes and elements, or both raise the same exception).  In exact
    arithmetic [loc + d] and [loc - d] are such arguments for every finite
    [loc] and [d] and every [scale]. *)
Theorem log_prob_symmetric :
  (forall (F : Type) (S : Scalar F), SignLaws F ->
   forall (self : DoublesidedMaxwell F) (x_plus x_minus : Tensor F),
     shape x_plus = shape x_minus ->
     (forall t idx,
        _log_prob self x_plus = Ok t -> in_bounds idx (shape t) ->
        let mu :=
          get (value (loc self)) (bproj idx (shape (value (loc self)))) in
        fsub (get x_plus (bproj idx (shape x_plus))) mu =
        fneg (fsub (get x_minus (bproj idx (shape x_minus))) mu)) ->
     result_eq (_log_prob self x_plus) (_log_prob self x_minus) /\
     result_eq (prob self x_plus) (prob self x_minus)) /\
  (forall (self : DoublesidedMaxwell xreal) (d x_plus x_minus : Tensor xreal),
     all_elements xfinite (value (loc self)) ->
     all_elements xfinite d ->
     tf_add (value (loc self)) d = Ok x_plus ->
     tf_sub (value (loc self)) d = Ok x_minus ->
     result_eq (_log_prob self x_plus) (_log_prob self x_minus) /\
     result_eq (prob self x_plus) (prob self x_minus)).
Proof.
  split.
  - intros F S L self x_plus x_minus. apply log_prob_symmetric_centred.
  - exact log_prob_symmetric_reals.
Qed.

(** C9, counterexample: in single precision, with [loc = 1], [scale = 11]
    and [d = 4e-8], [loc + d] rounds to [loc], where the log-density is
    [-inf] and the density 0, while [loc - d] rounds to the float below 1,
    where the log-density is finite, between -42 and -41, and the density is
    positive. *)
Lemma symmetry_lost_to_rounding :
  exists x_plus x_minus t_plus t_minus p_plus p_minus,
    tf_add (value (loc float32_example)) float32_offset = Ok x_plus /\
    tf_sub (value (loc float32_example)) float32_offset = Ok x_minus /\
    _log_prob float32_example x_plus = Ok t_plus /\
    _log_prob float32_example x_minus = Ok t_minus /\
    prob float32_example x_plus = Ok p_plus /\
    prob float32_example x_minus = Ok p_minus /\
    get x_plus [] = Float32.of_Z 1 /\
    get x_minus [] = SpecFloat.S754_finite false 16777215 (-24) /\
    get t_plus [] = SpecFloat.S754_infinity true /\
    Float32.is_finite (get t_minus []) = true /\
    Float32.ltb (Float32.of_Z (-42)) (get t_minus []) = true /\
    Float32.ltb (get t_minus []) (Float32.of_Z (-41)) = true /\
    get p_plus [] = SpecFloat.S754_zero false /\
    fpositive (get p_minus []) = true.
Proof.
  do 6 eexists.
  split; [reflexivity|]. split; [reflexivity|]. split; [reflexivity|].
  split; [reflexivity|]. split; [reflexivity|]. split; [reflexivity|].
  repeat split; vm_compute; reflexivity.
Qed.

(** C9 (amended) at the example batch and the offset 3, in exact
    arithmetic, and in single precision at [loc = 1], [scale = 11] and the
    arguments 2 and 0, whose differences from [loc] are 1 and -1. *)
Lemma log_prob_symmetric_witness :
  all_elements xfinite (value (loc example_dist)) /\
  all_elements xfinite (constant (XFin 3)) /\
  (exists x_plus x_minus,
     tf_add (value (loc example_dist)) (constant (XFin 3)) = Ok x_plus /\
     tf_sub (value (loc example_dist)) (constant (XFin 3)) = Ok x_minus /\
     result_eq (_log_prob example_dist x_plus)
               (_log_prob example_dist x_minus)) /\
  result_eq (_log_prob float32_example (constant (Float32.of_Z 2)))
            (_log_prob float32_example (constant (Float32.of_Z 0))) /\
  result_eq (prob float32_example (constant (Float32.of_Z 2)))
            (prob float32_example (constant (Float32.of_Z 0))).
Proof.
  assert (Hloc : all_elements xfinite (value (loc example_dist))).
  { intros idx Hidx.
    destruct (in_bounds_vector2 Hidx) as [-> | ->]; exact I. }
  assert (Hd : all_elements xfinite (constant (XFin 3))).
  { intros idx _. exact I. }
  split; [exact Hloc|]. split; [exact Hd|]. split.
  - eexists. eexists. split; [reflexivity|]. split; [reflexivity|].
    apply (proj2 log_prob_symmetric example_dist (constant (XFin 3)));
      [exact Hloc|exact Hd|reflexivity|reflexivity].
  - apply (proj1 log_prob_symmetric Float32.float32 float32_Scalar
             float32_SignLaws float32_example);
      [reflexivity|].
    intros t idx _ _. vm_compute. reflexivity.
Defined.

(** * The order of the draws *)

Section DrawOrder.
Context {F : Type} `{Scalar F}.
Variable normal_source : Shape -> SubSeed -> list nat -> F.
Variable coin_source : Shape -> SubSeed -> list nat -> bool.

End DrawOrder.







(** * More on shapes: which calls return *)

Lemma broadcast_comm a b :
  broadcast_dynamic_shape a b = broadcast_dynamic_shape b a.
Proof.
  unfold broadcast_dynamic_shape.
  destruct (bcast_rev (rev a) (rev b)) as [r|] eqn:Hab.
  - now rewrite (bcast_rev_comm _ _ Hab).
  - destruct (bcast_rev (rev b) (rev a)) as [r|] eqn:Hba; [|reflexivity].
    rewrite (bcast_rev_comm _ _ Hba) in Hab. discriminate.
Qed.

(** Associativity in the other direction: the left-nested broadcast the
    methods compute is defined only if the batch shape is. *)
Lemma broadcast_assoc_rev x l s m r :
  broadcast_dynamic_shape x l = Some m ->
  broadcast_dynamic_shape m s = Some r ->
  exists b, broadcast_dynamic_shape l s = Some b /\
            broadcast_dynamic_shape x b = Some r.
Proof.
  intros Hm Hr. rewrite broadcast_comm in Hm, Hr.
  destruct (broadcast_assoc _ _ _ Hm Hr) as (b & Hb1 & Hb2).
  exists b. now rewrite broadcast_comm, Hb1, broadcast_comm.
Qed.

Lemma bcast_rev_length a b c :
  bcast_rev a b = Some c ->
  List.length c = Nat.max (List.length a) (List.length b).
Proof.
  revert b c; induction a as [|x a IH]; intros b c.
  - simpl. now intros [= <-].
  - destruct b as [|y b].
    + simpl. now intros [= <-].
    + simpl. destruct (bcast_dim x y); [|discriminate].
      destruct (bcast_rev a b) as [r|] eqn:Hr; [|discriminate].
      intros [= <-]. simpl. now rewrite (IH _ _ Hr).
Qed.

Lemma broadcast_length a b c :
  broadcast_dynamic_shape a b = Some c ->
  List.length c = Nat.max (List.length a) (List.length b).
Proof.
  unfold broadcast_dynamic_shape.
  destruct (bcast_rev (rev a) (rev b)) as [r|] eqn:Hr; [|discriminate].
  simpl. intros [= <-].
  now rewrite length_rev, (bcast_rev_length _ _ Hr), !length_rev.
Qed.

Section Returns.
Context {F : Type} `{Scalar F}.
Variable normal_source : Shape -> SubSeed -> list nat -> F.
Variable coin_source : Shape -> SubSeed -> list nat -> bool.

Lemma batch_shape_tensor_cases (self : DoublesidedMaxwell F) :
  (exists b, _batch_shape_tensor self None None = Ok b) \/
  (_batch_shape_tensor self None None =
     Raise (InvalidArgumentError "Incompatible shapes") /\
   broadcast_dynamic_shape (shape (value (loc self)))
                           (shape (value (scale self))) = None).
Proof.
  unfold _batch_shape_tensor.
  destruct (broadcast_dynamic_shape _ _) as [b|]; [left; now exists b|].
  now right.
Qed.

(** X1.  [_log_prob] returns a tensor of shape [out] exactly when [loc] and
    [scale] broadcast to a batch shape and [x] broadcasts against it to
    [out]; in every other case it raises [InvalidArgumentError], whatever
    the elements are. *)
Theorem log_prob_returns_iff (self : DoublesidedMaxwell F) (x : Tensor F) :
  (forall out,
     (exists t, _log_prob self x = Ok t /\ shape t = out) <->
     (exists batch,
        _batch_shape_tensor self None None = Ok batch /\
        broadcast_dynamic_shape (shape x) batch = Some out)) /\
  ((exists t, _log_prob self x = Ok t) \/
   _log_prob self x = Raise (InvalidArgumentError "Incompatible shapes")).
Proof.
  destruct (broadcast_dynamic_shape (shape x) (shape (value (loc self))))
    as [m|] eqn:Hm.
  - destruct (broadcast_dynamic_shape m (shape (value (scale self))))
      as [r|] eqn:Hr.
    + destruct (log_prob_elements self x Hm Hr) as (t & Ht & Hs & _).
      split; [|left; now exists t].
      intros out. split.
      * intros (t' & Ht' & <-).
        destruct (broadcast_assoc_rev _ _ _ Hm Hr) as (b & Hb & Hxb).
        exists b. split; [now apply batch_shape_tensor_ok|].
        congruence.
      * intros (batch & Hb & Hout). apply batch_shape_tensor_ok in Hb.
        destruct (broadcast_assoc _ _ _ Hb Hout) as (m' & Hm' & Hr').
        exists t. split; [exact Ht|]. congruence.
    + rewrite (log_prob_raises_scale self x Hm Hr).
      split; [|now right].
      intros out. split; [intros (t & Ht & _); discriminate|].
      intros (batch & Hb & Hout). apply batch_shape_tensor_ok in Hb.
      destruct (broadcast_assoc _ _ _ Hb Hout) as (m' & Hm' & Hr').
      congruence.
  - rewrite (log_prob_raises_loc self x Hm).
    split; [|now right].
    intros out. split; [intros (t & Ht & _); discriminate|].
    intros (batch & Hb & Hout). apply batch_shape_tensor_ok in Hb.
    destruct (broadcast_assoc _ _ _ Hb Hout) as (m' & Hm' & Hr').
    congruence.
Qed.

Lemma log_prob_raises_batch (self : DoublesidedMaxwell F) (x : Tensor F) :
  broadcast_dynamic_shape (shape (value (loc self)))
                          (shape (value (scale self))) = None ->
  _log_prob self x = Raise (InvalidArgumentError "Incompatible shapes").
Proof.
  intros Hnone.
  destruct (broadcast_dynamic_shape (shape x) (shape (value (loc self))))
    as [m|] eqn:Hm; [|now apply log_prob_raises_loc].
  destruct (broadcast_dynamic_shape m (shape (value (scale self))))
    as [r|] eqn:Hr; [|now apply log_prob_raises_scale with m].
  destruct (broadcast_assoc_rev _ _ _ Hm Hr) as (b & Hb & _). congruence.
Qed.

Lemma mean_shape (self : DoublesidedMaxwell F) (b : Shape) :
  _batch_shape_tensor self None None = Ok b ->
  exists m, _mean self = Ok m /\ shape m = b.
Proof.
  intros Hb. apply batch_shape_tensor_ok in Hb.
  unfold _mean, tf_mul, tf_ones_like, binop. cbn [shape get].
  rewrite Hb. eexists. split; reflexivity.
Qed.

Lemma stddev_shape (self : DoublesidedMaxwell F) (b : Shape) :
  _batch_shape_tensor self None None = Ok b ->
  exists sd, _stddev self = Ok sd /\ shape sd = b.
Proof.
  intros Hb. apply batch_shape_tensor_ok in Hb.
  unfold _stddev, tf_mul, tf_ones_like, constant, binop.
  cbn [shape get bind].
  rewrite (fits_broadcast (fits_scalar _)). cbn [shape get bind].
  rewrite broadcast_comm, Hb. eexists. split; reflexivity.
Qed.

(** X2.  The moments and the sampler return exactly when the runtime shapes
    of [loc] and [scale] broadcast, with the batch shape as their shape (the
    sample has the sample count in front); when the shapes do not broadcast
    each of them, and [_log_prob] at every [x], raises the
    [InvalidArgumentError] of the broadcast: the shape error the constructor
    does not look for at run time surfaces in every method. *)
Theorem methods_share_batch_shape (self : DoublesidedMaxwell F) (n : nat)
    (seed : Seed) :
  match _batch_shape_tensor self None None with
  | Ok b =>
      (exists m, _mean self = Ok m /\ shape m = b) /\
      (exists sd, _stddev self = Ok sd /\ shape sd = b) /\
      (exists t, _sample_n normal_source coin_source self n seed = Ok t /\
                 shape t = n :: b)
  | Raise e =>
      e = InvalidArgumentError "Incompatible shapes" /\
      _mean self = Raise e /\
      _stddev self = Raise e /\
      _sample_n normal_source coin_source self n seed = Raise e /\
      forall x, _log_prob self x = Raise e
  end.
Proof.
  destruct (batch_shape_tensor_cases self) as [[b Hb]|[He Hnone]].
  - rewrite Hb. split; [now apply mean_shape|].
    split; [now apply stddev_shape|].
    destruct (sample_n_elements normal_source coin_source self n seed Hb)
      as (t & Ht & Hs & _).
    now exists t.
  - rewrite He. split; [reflexivity|]. split; [|split; [|split]].
    + unfold _mean, tf_mul, tf_ones_like, binop. cbn [shape].
      now rewrite Hnone.
    + unfold _stddev, tf_mul, tf_ones_like, constant, binop.
      cbn [shape get bind].
      rewrite (fits_broadcast (fits_scalar _)). cbn [shape get bind].
      now rewrite broadcast_comm, Hnone.
    + unfold _sample_n, convert_to_tensor.
      now rewrite batch_shape_tensor_eq, He.
    + intros x. now apply log_prob_raises_batch.
Qed.
End Returns.

Lemma Forall2_rev_gen {A B : Type} (P : A -> B -> Prop) (l : list A)
    (m : list B) :
  Forall2 P l m -> Forall2 P (rev l) (rev m).
Proof.
  induction 1 as [|x y l m Hxy _ IH]; [constructor|].
  simpl. apply Forall2_app; [exact IH|now constructor].
Qed.

Section BatchShape.
Context {F : Type}.

(** X3.  The batch shape does not depend on the order of [loc] and [scale];
    when it is defined its rank is the larger of the two ranks and both
    parameters stretch to it; a parameter of rank 0 never makes it fail and
    leaves the shape of the other one, and two parameters of the same shape
    give that shape. *)
Theorem batch_shape_tensor_properties
    (self : DoublesidedMaxwell F) (a b : Tensor F) :
  _batch_shape_tensor self (Some a) (Some b) =
  _batch_shape_tensor self (Some b) (Some a) /\
  (forall s, _batch_shape_tensor self (Some a) (Some b) = Ok s ->
     List.length s = Nat.max (List.length (shape a)) (List.length (shape b))
     /\ fits (shape a) s /\ fits (shape b) s) /\
  (shape a = [] ->
   _batch_shape_tensor self (Some a) (Some b) = Ok (shape b)) /\
  (shape a = shape b ->
   _batch_shape_tensor self (Some a) (Some b) = Ok (shape a)).
Proof.
  unfold _batch_shape_tensor. split; [|split; [|split]].
  - now rewrite broadcast_comm.
  - intros s.
    destruct (broadcast_dynamic_shape (shape a) (shape b)) as [r|] eqn:Hr;
      [|discriminate].
    intros [= <-]. split; [now apply broadcast_length|].
    now apply broadcast_fits.
  - intros ->. now rewrite (fits_broadcast (fits_scalar _)).
  - intros <-. now rewrite (fits_broadcast (fits_refl _)).
Qed.

(** X4.  When the static shapes of [loc] and [scale] are fully known and
    are their runtime shapes, the static batch shape is the runtime batch
    shape, and [_batch_shape] raises exactly when [_batch_shape_tensor]
    does. *)
Theorem batch_shape_static_dynamic (self : DoublesidedMaxwell F) :
  static_shape (loc self) = fully_known (shape (value (loc self))) ->
  static_shape (scale self) = fully_known (shape (value (scale self))) ->
  match _batch_shape_tensor self None None with
  | Ok b => _batch_shape self = Ok (fully_known b)
  | Raise _ =>
      _batch_shape self =
      Raise (ValueError "Incompatible shapes for broadcasting")
  end.
Proof.
  intros Hl Hs.
  unfold _batch_shape, _batch_shape_tensor, broadcast_static_shape,
    broadcast_dynamic_shape, fully_known in *.
  rewrite Hl, Hs, <- !map_rev, bcast_static_rev_known.
  destruct (bcast_rev _ _) as [r|]; simpl; [|reflexivity].
  now rewrite map_rev.
Qed.
End BatchShape.

(** Static broadcasting follows runtime broadcasting on every pair of
    dimensions it describes. *)
Lemma bcast_static_dim_sound x y a b c :
  describes_dim x a -> describes_dim y b -> bcast_dim a b = Some c ->
  exists d, bcast_static_dim x y = Some d /\ describes_dim d c.
Proof.
  intros Hx Hy Hc.
  destruct x as [dx|], y as [dy|]; simpl in Hx, Hy; subst.
  - rewrite bcast_static_dim_known, Hc. now exists (Some c).
  - simpl. destruct (Nat.ltb_spec 1 a) as [Ha|Ha].
    + exists (Some a). split; [reflexivity|]. simpl.
      destruct (bcast_dim_inv _ _ Hc) as [[Ha1|Hac] _]; [lia|exact Hac].
    + now exists None.
  - simpl. destruct (Nat.ltb_spec 1 b) as [Hb|Hb].
    + exists (Some b). split; [reflexivity|]. simpl.
      destruct (bcast_dim_inv _ _ Hc) as [_ [Hb1|Hbc]]; [lia|exact Hbc].
    + now exists None.
  - now exists None.
Qed.

Lemma bcast_static_rev_sound x y a b c :
  Forall2 describes_dim x a -> Forall2 describes_dim y b ->
  bcast_rev a b = Some c ->
  exists d, bcast_static_rev x y = Some d /\ Forall2 describes_dim d c.
Proof.
  intros Hx; revert y b c.
  induction Hx as [|dx da x a Hd Hx IH]; intros y b c Hy Hc.
  - simpl in Hc. injection Hc as <-. now exists y.
  - destruct Hy as [|dy db y b Hd' Hy].
    + simpl in Hc. injection Hc as <-. exists (dx :: x).
      split; [reflexivity|now constructor].
    + simpl in Hc.
      destruct (bcast_dim da db) as [dc|] eqn:Hdc; [|discriminate].
      destruct (bcast_rev a b) as [r|] eqn:Hr; [|discriminate].
      injection Hc as <-.
      destruct (@bcast_static_dim_sound dx dy da db dc Hd Hd' Hdc)
        as (d & Hsd & Hdd).
      destruct (IH y b r Hy Hr) as (ds & Hsds & Hdds).
      exists (d :: ds). simpl. rewrite Hsd, Hsds.
      split; [reflexivity|now constructor].
Qed.

Section StaticSound.
Context {F : Type} `{Scalar F}.

(** X5.  The static shape check has no false alarm: when the static shapes
    describe the runtime shapes (unknown ranks and dimensions allowed) and
    the runtime shapes broadcast, [_batch_shape] returns, what it returns
    describes the runtime batch shape, and the construction-time call of the
    validation hook raises no [ValueError] about the shapes. *)
Theorem batch_shape_sound (self : DoublesidedMaxwell F) (b : Shape) :
  describes (static_shape (loc self)) (shape (value (loc self))) ->
  describes (static_shape (scale self)) (shape (value (scale self))) ->
  _batch_shape_tensor self None None = Ok b ->
  (exists ts, _batch_shape self = Ok ts /\ describes ts b) /\
  (forall msg,
     _parameter_control_dependencies self true <> Raise (ValueError msg)).
Proof.
  intros Hl Hs Hb.
  assert (Hts : exists ts, _batch_shape self = Ok ts /\ describes ts b).
  { unfold _batch_shape_tensor, broadcast_dynamic_shape in Hb.
    destruct (bcast_rev (rev (shape (value (loc self))))
                (rev (shape (value (scale self))))) as [r|] eqn:Hr;
      [|discriminate].
    simpl in Hb. injection Hb as <-.
    unfold _batch_shape, broadcast_static_shape.
    destruct (static_shape (loc self)) as [dl|];
      [|exists None; now split].
    destruct (static_shape (scale self)) as [ds|];
      [|exists None; now split].
    simpl in Hl, Hs.
    destruct (@bcast_static_rev_sound _ _ _ _ _ (Forall2_rev_gen Hl)
                (Forall2_rev_gen Hs) Hr) as (d & Hd & Hdr).
    rewrite Hd. exists (Some (rev d)). split; [reflexivity|].
    simpl. now apply Forall2_rev_gen. }
  split; [exact Hts|].
  destruct Hts as (ts & Hts & _). intros msg.
  exact (@control_dependencies_init_no_shape_error _ _ self ts msg Hts).
Qed.
End StaticSound.

Section HookRaises.
Context {F : Type} `{Scalar F}.

(** X6.  The validation hook raises the positivity error exactly when the
    check is due and fails: on a later access when [validate_args] is on,
    [scale] is a reference and one of its elements is not positive; at
    construction when the static shapes pass, [validate_args] is on, [scale]
    is not a reference and one of its elements is not positive.  The call on
    a later access raises nothing else, the error carries the message of the
    source, and a call that returns gives at most one assertion. *)
Theorem control_dependencies_raise_iff (self : DoublesidedMaxwell F) :
  let message := "Argument `scale` must be positive."%string in
  let some_not_positive :=
    exists idx, in_bounds idx (shape (value (scale self))) /\
                fpositive (get (value (scale self)) idx) = false in
  ((exists e, _parameter_control_dependencies self false = Raise e) <->
   validate_args self = true /\ is_ref (scale self) = true /\
   some_not_positive) /\
  ((exists m, _parameter_control_dependencies self true
              = Raise (InvalidArgumentError m)) <->
   (exists b, _batch_shape self = Ok b) /\
   validate_args self = true /\ is_ref (scale self) = false /\
   some_not_positive) /\
  (forall e, _parameter_control_dependencies self false = Raise e ->
     e = InvalidArgumentError message) /\
  (forall m, _parameter_control_dependencies self true
             = Raise (InvalidArgumentError m) -> m = message) /\
  (forall is_init assertions,
     _parameter_control_dependencies self is_init = Ok assertions ->
     List.length assertions <= 1).
Proof.
  intros message some_not_positive.
  pose proof (assert_positive_cases (scale self) message) as Hcases.
  pose proof (control_dependencies_access self) as Hacc.
  fold message in Hacc.
  assert (Hinit : forall b, _batch_shape self = Ok b ->
            _parameter_control_dependencies self true =
            if negb (validate_args self) then Ok []
            else if is_ref (scale self) then Ok []
            else (a <- assert_positive (scale self) message ;; Ok [a]))
    by (intros b Hb; exact (control_dependencies_init_ok _ Hb)).
  split; [|split; [|split; [|split]]].
  - rewrite Hacc. split.
    + intros [e He].
      destruct (validate_args self); [|discriminate].
      destruct (is_ref (scale self)); [|discriminate].
      destruct Hcases as [[Hok _]|[_ Hex]];
        [rewrite Hok in He; discriminate|].
      now repeat split.
    + intros (-> & -> & idx & Hidx & Hneg). cbn [negb].
      rewrite (assert_positive_raise _ _ Hidx Hneg). now eexists.
  - split.
    + intros [m He].
      destruct (_batch_shape self) as [b|e] eqn:Hb.
      * rewrite (Hinit b eq_refl) in He.
        destruct (validate_args self); [|discriminate].
        destruct (is_ref (scale self)); [discriminate|].
        destruct Hcases as [[Hok _]|[_ Hex]];
          [rewrite Hok in He; discriminate|].
        split; [now exists b|]. now repeat split.
      * rewrite (control_dependencies_init_raise _ Hb) in He. discriminate.
    + intros ((b & Hb) & Hv & Hr & idx & Hidx & Hneg).
      rewrite (Hinit b Hb), Hv, Hr. cbn [negb].
      rewrite (assert_positive_raise _ _ Hidx Hneg). now eexists.
  - intros e. rewrite Hacc.
    destruct (negb (validate_args self)); [discriminate|].
    destruct (is_ref (scale self)); [|discriminate].
    destruct Hcases as [[-> _]|[-> _]]; [discriminate|].
    now intros [= <-].
  - intros m He.
    destruct (_batch_shape self) as [b|e] eqn:Hb.
    + rewrite (Hinit b eq_refl) in He.
      destruct (negb (validate_args self)); [discriminate|].
      destruct (is_ref (scale self)); [discriminate|].
      destruct Hcases as [[Hok _]|[Hr _]]; rewrite ?Hok, ?Hr in He;
        [discriminate|].
      now injection He as <-.
    + rewrite (control_dependencies_init_raise _ Hb) in He. discriminate.
  - intros is_init assertions.
    assert (Hlen : forall r : result (list (Assertion F)),
              r = Ok [] \/
              r = (a <- assert_positive (scale self) message ;; Ok [a]) ->
              r = Ok assertions -> List.length assertions <= 1).
    { intros r [->| ->].
      - intros [= <-]. simpl. lia.
      - destruct Hcases as [[-> _]|[-> _]]; [|discriminate].
        intros [= <-]. simpl. lia. }
    destruct is_init.
    + destruct (_batch_shape self) as [b|e] eqn:Hb.
      * apply Hlen. rewrite (Hinit b eq_refl).
        destruct (negb (validate_args self)); [now left|].
        destruct (is_ref (scale self)); [now left|now right].
      * rewrite (control_dependencies_init_raise _ Hb). discriminate.
    + apply Hlen. rewrite Hacc.
      destruct (negb (validate_args self)); [now left|].
      destruct (is_ref (scale self)); [now right|now left].
Qed.
End HookRaises.

(** * The density and the sampler on the extended reals *)

Lemma xmul_one_r x : xmul x (XFin 1) = x.
Proof. now rewrite xmul_comm, xmul_one_l. Qed.

Lemma xadd_zero_r x : xadd x (XFin 0) = x.
Proof. destruct x; simpl; try reflexivity. f_equal. ring. Qed.

Lemma xsub_nan_r (y : xreal) : xsub y XNaN = XNaN.
Proof. now destruct y. Qed.

(** A scale whose logarithm is not a number makes the density not a number. *)
Lemma log_density_log_nan (x_i mu sigma : xreal) :
  xlog sigma = XNaN -> log_density x_i mu sigma = XNaN.
Proof.
  intros Hlog. unfold log_density.
  cbn [fdiv fsub fmul fadd flog neg_half half_log_2pi xreal_Scalar].
  rewrite Hlog. cbn [xadd]. apply xsub_nan_r.
Qed.

Lemma log_density_zero_scale (x_i mu : xreal) :
  log_density x_i mu (XFin 0) = XNaN.
Proof.
  unfold log_density.
  cbn [fdiv fsub fmul fadd flog neg_half half_log_2pi xreal_Scalar].
  assert (Hhalf : Rsign (- (1 / 2)) = Neg) by (apply Rsign_neg; lra).
  assert (Hz : forall u, xmul (xdiv u (XFin 0)) (xdiv u (XFin 0)) = XNaN \/
                         xmul (xdiv u (XFin 0)) (xdiv u (XFin 0)) = XPosInf).
  { intros [| | |a]; cbn [xdiv xsign]; try rewrite Rsign_zero; cbn; auto.
    destruct (Rsign a); cbn; auto. }
  destruct (Hz (xsub x_i mu)) as [-> | ->].
  - reflexivity.
  - cbn [xmul xsign xlog]. rewrite Hhalf. reflexivity.
Qed.

Lemma log_density_invalid_scale (x_i mu sigma : xreal) :
  ~ xpositive sigma -> log_density x_i mu sigma = XNaN.
Proof.
  intros Hs. destruct sigma as [| | |s].
  - now apply log_density_log_nan.
  - now apply log_density_log_nan.
  - exfalso. apply Hs. exact I.
  - simpl in Hs. destruct (Rtotal_order s 0) as [Hneg|[->|Hpos]].
    + now apply log_density_negative_scale.
    + apply log_density_zero_scale.
    + contradiction.
Qed.

(** X11.  At every position where [scale] is not positive (zero, negative,
    [-inf] or not a number), [_log_prob] returns not-a-number, whatever [x]
    and [loc] are there; it does not raise. *)
Theorem log_prob_invalid_scale (self : DoublesidedMaxwell xreal)
    (x : Tensor xreal) (batch out : Shape) :
  _batch_shape_tensor self None None = Ok batch ->
  broadcast_dynamic_shape (shape x) batch = Some out ->
  exists t,
    _log_prob self x = Ok t /\ shape t = out /\
    forall idx,
      ~ xpositive (get (value (scale self))
                       (bproj idx (shape (value (scale self))))) ->
      get t idx = XNaN.
Proof.
  intros Hb Hout. apply batch_shape_tensor_ok in Hb.
  destruct (broadcast_assoc _ _ _ Hb Hout) as (m & Hm & Hms).
  destruct (log_prob_elements self x Hm Hms) as (t & Ht & Hs & Hget).
  exists t. split; [exact Ht|]. split; [exact Hs|].
  intros idx Hinv. rewrite Hget. now apply log_density_invalid_scale.
Qed.

Section SamplerReals.
Variable normal_source : Shape -> SubSeed -> list nat -> xreal.
Variable coin_source : Shape -> SubSeed -> list nat -> bool.

(** X12.  The sampler is a location-scale transformation: the sample of a
    distribution is [loc + scale * X] (computed as [X * scale + loc]), where
    [X] is the sample that the standard distribution of the same batch shape
    ([loc = 0], [scale = 1]) gives for the same sample count and seed. *)
Theorem sample_location_scale (self : DoublesidedMaxwell xreal) (n : nat)
    (seed : Seed) (batch : Shape) :
  _batch_shape_tensor self None None = Ok batch ->
  exists t t0,
    _sample_n normal_source coin_source self n seed = Ok t /\
    _sample_n normal_source coin_source (standard_maxwell batch) n seed
    = Ok t0 /\
    shape t = shape t0 /\
    forall idx, in_bounds idx (n :: batch) ->
      get t idx =
      xadd (xmul (get t0 idx)
                 (get (value (scale self))
                      (bproj idx (shape (value (scale self))))))
           (get (value (loc self)) (bproj idx (shape (value (loc self))))).
Proof.
  intros Hb.
  destruct (sample_n_elements normal_source coin_source self n seed Hb)
    as (t & Ht & Hst & Hget).
  assert (Hb0 : _batch_shape_tensor (standard_maxwell batch) None None
                = Ok batch).
  { unfold _batch_shape_tensor, standard_maxwell. cbn [loc scale value
      tensor_param shape].
    now rewrite (fits_broadcast (fits_refl _)). }
  destruct (sample_n_elements normal_source coin_source
              (standard_maxwell batch) n seed Hb0)
    as (t0 & Ht0 & Hst0 & Hget0).
  exists t, t0. split; [exact Ht|]. split; [exact Ht0|].
  split; [congruence|].
  intros idx Hidx. rewrite (Hget idx Hidx), (Hget0 idx Hidx).
  unfold sample_element at 2.
  cbn [standard_maxwell loc scale value tensor_param shape get].
  cbn [fadd fmul xreal_Scalar].
  now rewrite xmul_one_r, xadd_zero_r.
Qed.
End SamplerReals.

(** * The additional properties at the examples *)

(** X4 at the example batch. *)
Lemma batch_shape_static_dynamic_witness :
  static_shape (loc example_dist)
  = fully_known (shape (value (loc example_dist))) /\
  static_shape (scale example_dist)
  = fully_known (shape (value (scale example_dist))) /\
  _batch_shape_tensor example_dist None None = Ok [2] /\
  _batch_shape example_dist = Ok (fully_known [2]).
Proof.
  split; [reflexivity|]. split; [reflexivity|]. split; [reflexivity|].
  exact (batch_shape_static_dynamic example_dist eq_refl eq_refl).
Defined.

(** X5 at the example batch with partly known static shapes. *)
Lemma batch_shape_sound_witness :
  describes (static_shape (loc example_partly_known))
            (shape (value (loc example_partly_known))) /\
  describes (static_shape (scale example_partly_known))
            (shape (value (scale example_partly_known))) /\
  _batch_shape_tensor example_partly_known None None = Ok [2] /\
  exists ts, _batch_shape example_partly_known = Ok ts /\ describes ts [2].
Proof.
  assert (Hl : describes (static_shape (loc example_partly_known))
                         (shape (value (loc example_partly_known))))
    by (simpl; repeat constructor).
  assert (Hs : describes (static_shape (scale example_partly_known))
                         (shape (value (scale example_partly_known))))
    by exact I.
  split; [exact Hl|]. split; [exact Hs|]. split; [reflexivity|].
  exact (proj1 (@batch_shape_sound _ _ example_partly_known [2] Hl Hs
                  eq_refl)).
Defined.

(** X11 at the example batch with the scale [[-1, nan]]: the log-density is
    not a number at both positions. *)
Lemma log_prob_invalid_scale_witness :
  _batch_shape_tensor example_invalid_scale None None = Ok [2] /\
  broadcast_dynamic_shape (shape example_loc) [2] = Some [2] /\
  exists t,
    _log_prob example_invalid_scale example_loc = Ok t /\
    get t [0] = XNaN /\ get t [1] = XNaN.
Proof.
  split; [reflexivity|]. split; [reflexivity|].
  destruct (@log_prob_invalid_scale example_invalid_scale example_loc
              [2] [2] eq_refl eq_refl) as (t & Ht & _ & Hget).
  exists t. split; [exact Ht|].
  split; apply Hget; simpl; [lra|tauto].
Defined.

(** X12 at the example batch, three draws, seed 42 and the example random
    source. *)
Lemma sample_location_scale_witness :
  _batch_shape_tensor example_dist None None = Ok [2] /\
  exists t t0,
    _sample_n example_normal_source example_coin_source example_dist 3
              (Some 42%Z) = Ok t /\
    _sample_n example_normal_source example_coin_source
              (standard_maxwell [2]) 3 (Some 42%Z) = Ok t0 /\
    get t [2; 1] = xadd (xmul (get t0 [2; 1]) (XFin 22)) (XFin 2).
Proof.
  split; [reflexivity|].
  destruct (@sample_location_scale example_normal_source
              example_coin_source example_dist 3 (Some 42%Z) [2] eq_refl)
    as (t & t0 & Ht & Ht0 & _ & Hget).
  exists t, t0. split; [exact Ht|]. split; [exact Ht0|].
  apply (Hget [2; 1]). repeat constructor.
Defined.
